(** * Termtris: the controller of the game (src/termtris.py)

    A shallow embedding of the controller class [Termtris] and of the entry
    point [main].  The controller owns four integers (score, highest, speed,
    tick) and talks to three collaborators that live in other modules: the
    backend engine ([TetrisBackend]) and the two panels ([ActivePanel],
    [MessagePanel]).  The collaborators are taken as an interface; every
    call the controller issues to them is recorded, oldest first, in the
    [calls] component of the state, so that statements such as "merges the
    piece" or "invokes move_down once" are statements about that record. *)

From Stdlib Require Import ZArith List String Ascii Bool Lia QArith_base.
From Stdlib Require Import DecimalString.
Import ListNotations.
Local Open Scope Z_scope.

(** ** Python values the controller handles *)

(** Exceptions that can leave the controller. *)
Inductive Exn : Type :=
| ValueError (msg : string)
| EnvironmentError (msg : string)
| IndexError
| TypeError
| AttributeError
| ZeroDivisionError.

(** [termkey.Key]: the members the controller names, and all the others. *)
Module Key.
Inductive t : Type :=
| NONE | ENTER | ESC | DOWN | SPACE | UP | RIGHT | LEFT
| CONTROL_D | CONTROL_X
| OTHER (code : nat).

Definition eqb (a b : t) : bool :=
  match a, b with
  | NONE, NONE | ENTER, ENTER | ESC, ESC | DOWN, DOWN | SPACE, SPACE
  | UP, UP | RIGHT, RIGHT | LEFT, LEFT
  | CONTROL_D, CONTROL_D | CONTROL_X, CONTROL_X => true
  | OTHER m, OTHER n => Nat.eqb m n
  | _, _ => false
  end.
End Key.

(** The methods of [TetrisBackend] the controller calls. *)
Inductive Method : Type :=
| Kick_off | Move_down | Fall_down | Rotate | Move_right | Move_left
| Print_grid.

Section Controller.

(** [Tetro] is the piece type of tt_tetro, [B] the state of a
    [TetrisBackend] object. *)
Context {Tetro B : Type}.

(** The tuple [(tetro, row, col, elim_rows)] a backend action returns. *)
Record ActResult : Type := mkActResult {
  res_tetro : Tetro;
  res_row : Z;
  res_col : Z;
  res_elim_rows : option (list Z)
}.

(** What a key handler can return: [None], a [bool] (the pause lambda) or
    a backend tuple. *)
Inductive HandlerRes : Type :=
| RNone
| RBool (b : bool)
| RAct (a : ActResult).

(** Python truth value, as tested by [if res:]. *)
Definition truthy (r : HandlerRes) : bool :=
  match r with
  | RNone => false
  | RBool b => b
  | RAct _ => true
  end.

Definition of_backend (r : option ActResult) : HandlerRes :=
  match r with
  | None => RNone
  | Some a => RAct a
  end.

(** [MessagePanel.CENTER]. *)
Inductive Align : Type := CENTER.

(** Calls issued to the collaborators. Keyword arguments that a call
    leaves out are [None]. *)
Inductive Event : Type :=
| NewActivePanel (o_row o_col width height : Z)
| NewMessagePanel (o_row o_col width height : Z)
| NewBackend (width height : Z)
| ActShow
| ActClear
| ActMergeTetro
| ActBlinkRows (rows : list Z) (times : Z) (interval : Q)
| ActRemoveRows (rows : list Z)
| ActRefreshTetro (tetro : Tetro) (row col : Z)
| MsgShow
| MsgPutText (text : string) (row : option Z) (align : option Align)
| MsgAddSeparator (row : option Z)
| MsgTetroPos (row col : Z)
| MsgRefreshTetro (tetro : Tetro)
| BackendCall (m : Method)
| CursorSwitchScreen | CursorClearScreen | CursorHideCursor
| CursorShowCursor | CursorRestoreScreen
| SetColor (fg bg : string) | ResetColor
| SetParams (echo intr : option bool).

(** The interface of tt_backend.TetrisBackend, as far as the controller
    uses it. Every action returns [None] or a tuple. [print_grid] is a
    debugging aid whose result the loop tests like any other. *)
Class Backend : Type := {
  new_backend : Z -> Z -> B;
  next_tetro : B -> Tetro;
  kick_off : B -> option ActResult * B;
  move_down : B -> option ActResult * B;
  fall_down : B -> option ActResult * B;
  rotate : B -> option ActResult * B;
  move_right : B -> option ActResult * B;
  move_left : B -> option ActResult * B;
  print_grid : B -> HandlerRes * B
}.

Context {backend_ops : Backend}.

(** ** The controller object *)

(** The fields of a [Termtris] object. [speed] is declared without a
    value in [__init__], hence the option. [calls] is the record of the
    calls issued so far. *)
Record Termtris : Type := mkTermtris {
  backend : B;
  score : Z;
  highest : Z;
  speed : option Z;
  tick : Z;
  stat_sect_row : Z;
  calls : list Event
}.

Definition set_backend (b : B) (s : Termtris) : Termtris :=
  mkTermtris b (score s) (highest s) (speed s) (tick s)
             (stat_sect_row s) (calls s).
Definition set_score (v : Z) (s : Termtris) : Termtris :=
  mkTermtris (backend s) v (highest s) (speed s) (tick s)
             (stat_sect_row s) (calls s).
Definition set_highest (v : Z) (s : Termtris) : Termtris :=
  mkTermtris (backend s) (score s) v (speed s) (tick s)
             (stat_sect_row s) (calls s).
Definition set_speed (v : Z) (s : Termtris) : Termtris :=
  mkTermtris (backend s) (score s) (highest s) (Some v) (tick s)
             (stat_sect_row s) (calls s).
Definition set_tick (v : Z) (s : Termtris) : Termtris :=
  mkTermtris (backend s) (score s) (highest s) (speed s) v
             (stat_sect_row s) (calls s).
Definition add_call (e : Event) (s : Termtris) : Termtris :=
  mkTermtris (backend s) (score s) (highest s) (speed s) (tick s)
             (stat_sect_row s) (calls s ++ [e]).

(** ** State and exceptions *)

(** A method either returns a value or raises; in both cases the object
    is left in some state. *)
Inductive Outcome (A : Type) : Type :=
| Ok (a : A) (s : Termtris)
| Raise (e : Exn) (s : Termtris).
Arguments Ok {A} a s.
Arguments Raise {A} e s.

Definition M (A : Type) : Type := Termtris -> Outcome A.

Definition ret {A} (a : A) : M A := fun s => Ok a s.
Definition bind {A C} (m : M A) (k : A -> M C) : M C :=
  fun s => match m s with
           | Ok a s' => k a s'
           | Raise e s' => Raise e s'
           end.
Definition raise {A} (e : Exn) : M A := fun s => Raise e s.
Definition get : M Termtris := fun s => Ok s s.
Definition modify (f : Termtris -> Termtris) : M unit :=
  fun s => Ok tt (f s).
Definition emit (e : Event) : M unit := modify (add_call e).

(** The state an outcome leaves behind. *)
Definition final {A} (o : Outcome A) : Termtris :=
  match o with
  | Ok _ s => s
  | Raise _ s => s
  end.

Notation "x <- m ;; k" := (bind m (fun x => k))
  (at level 61, m at next level, right associativity).
Notation "m ;; k" := (bind m (fun _ => k))
  (at level 61, right associativity).

(** Calling a backend method: recorded, and the backend state replaced. *)
Definition call_backend {A} (m : Method) (f : B -> A * B) : M A :=
  s <- get ;;
  emit (BackendCall m) ;;
  let (r, b') := f (backend s) in
  modify (set_backend b') ;;
  ret r.

(** ** Module constants *)

Definition _SCORE_TABLE : list Z := [10; 100; 200; 400; 800].
Definition _LEVEL_TABLE : list Z :=
  [1000; 2000; 4000; 8000; 16000; 32000; 64000; 80000000].

(** Tuple indexing [t[i]] for [i >= 0]; out of range raises IndexError.
    (The controller only indexes with a [len], never a negative int.) *)
Definition tuple_index (t : list Z) (i : nat) : M Z :=
  match nth_error t i with
  | Some v => ret v
  | None => raise IndexError
  end.

(** ** Text of the statistics section *)

Definition nl : string := String (ascii_of_nat 10) EmptyString.

Definition str_of_int (z : Z) : string :=
  NilZero.string_of_int (Z.to_int z).

Fixpoint spaces (n : nat) : string :=
  match n with
  | O => EmptyString
  | S n' => String " "%char (spaces n')
  end.

(** The format spec [:<6d]: decimal, left aligned in at least 6 columns. *)
Definition fmt_left6 (z : Z) : string :=
  let d := str_of_int z in
  (d ++ spaces (6 - String.length d))%string.

Definition stat_text (i : Z) (sc hi : Z) : string :=
  ("Next Tetro:" ++ nl ++
   "Level: " ++ str_of_int (i + 1) ++ nl ++
   "Score: " ++ fmt_left6 sc ++ nl ++
   "Highest: " ++ fmt_left6 hi)%string.

(** ** Methods *)

(** The body of the [if] in [_renew_game_stat], at index [i]: show the
    statistics, refresh the preview, assign the speed. *)
Definition show_level (len_table : Z) (i : Z) : M unit :=
  s <- get ;;
  emit (MsgPutText (stat_text i (score s) (highest s))
                   (Some (stat_sect_row s + 1)) None) ;;
  emit (MsgRefreshTetro (next_tetro (backend s))) ;;
  modify (set_speed (len_table - i)).

(** The [for i, level in enumerate(_LEVEL_TABLE)] loop of
    [_renew_game_stat], from index [i] on, with [len_table] the length of
    the whole table. The first level above the score ends the loop. *)
Fixpoint renew_loop (len_table : Z) (i : Z) (levels : list Z) : M unit :=
  match levels with
  | [] => ret tt
  | level :: rest =>
      s <- get ;;
      if score s <? level then show_level len_table i
      else renew_loop len_table (i + 1) rest
  end.

Definition _renew_game_stat : M unit :=
  renew_loop (Z.of_nat (List.length _LEVEL_TABLE)) 0 _LEVEL_TABLE.

Definition _update_score (row_num : nat) : M unit :=
  pts <- tuple_index _SCORE_TABLE row_num ;;
  modify (fun s => set_score (score s + pts) s) ;;
  s <- get ;;
  (if score s >? highest s
   then modify (set_highest (score s))
   else ret tt) ;;
  _renew_game_stat.

Definition _new_game : M HandlerRes :=
  emit ActClear ;;
  res <- call_backend Kick_off kick_off ;;
  modify (set_score 0) ;;
  _update_score 0 ;;
  ret (of_backend res).

(** [self.tick = (self.tick + 1) % self.speed]: reading an unassigned
    [speed] raises AttributeError, a zero modulus ZeroDivisionError; for
    a positive modulus Python's [%] is [Z.modulo]. *)
Definition _idle_fall : M HandlerRes :=
  s <- get ;;
  match speed s with
  | None => raise AttributeError
  | Some n =>
      if n =? 0 then raise ZeroDivisionError
      else
        modify (set_tick ((tick s + 1) mod n)) ;;
        s' <- get ;;
        if tick s' =? 0
        then r <- call_backend Move_down move_down ;; ret (of_backend r)
        else ret RNone
  end.

Definition _act_response (tetro : Tetro) (row col : Z)
           (elim_rows : option (list Z)) : M unit :=
  match elim_rows with
  | Some rows =>
      emit ActMergeTetro ;;
      match rows with
      | [] => ret tt
      | _ :: _ =>
          emit (ActBlinkRows rows 3 (1 # 10)%Q) ;;
          emit (ActRemoveRows rows)
      end ;;
      _update_score (List.length rows)
  | None => ret tt
  end ;;
  emit (ActRefreshTetro tetro row col).

(** ** The key loop *)

(** One turn of the loop reads a key with [getkey]. The pause handler
    also blocks on [termkey.getch()] and negates what it gets, so a turn
    also carries the truth value of what [getch] would return in it. *)
Record Input : Type := mkInput {
  in_key : Key.t;
  in_getch : bool
}.

Definition Handler : Type := M HandlerRes.

(** A bound backend method used as a handler. *)
Definition backend_method (m : Method) (f : B -> option ActResult * B)
  : Handler :=
  r <- call_backend m f ;; ret (of_backend r).

(** [lambda: not termkey.getch()]. *)
Definition pause (getch_result : bool) : Handler :=
  ret (RBool (negb getch_result)).

(** The dict [key_funcs], in the order it is written. *)
Definition key_funcs (getch_result : bool) : list (Key.t * Handler) :=
  [ (Key.NONE, _idle_fall);
    (Key.ENTER, _new_game);
    (Key.ESC, pause getch_result);
    (Key.DOWN, backend_method Move_down move_down);
    (Key.SPACE, backend_method Fall_down fall_down);
    (Key.UP, backend_method Rotate rotate);
    (Key.RIGHT, backend_method Move_right move_right);
    (Key.LEFT, backend_method Move_left move_left);
    (Key.CONTROL_D, call_backend Print_grid print_grid) ].

(** [dict.get(key, default)]. *)
Fixpoint dict_get {V : Type} (d : list (Key.t * V)) (key : Key.t)
         (default : V) : V :=
  match d with
  | [] => default
  | (k, v) :: rest => if Key.eqb k key then v else dict_get rest key default
  end.

(** The body of the [while]: dispatch, then [if res:] unpack the tuple
    and respond. Subscripting a [True] raises TypeError. *)
Definition loop_body (i : Input) : M unit :=
  res <- dict_get (key_funcs (in_getch i)) (in_key i) _idle_fall ;;
  if truthy res then
    match res with
    | RAct a =>
        _act_response (res_tetro a) (res_row a) (res_col a)
                      (res_elim_rows a)
    | _ => raise TypeError
    end
  else ret tt.

(** How the loop stands after the keys read so far: it has left through
    the quit key, or it is still reading. *)
Inductive LoopEnd : Type := Exited | Reading.

Fixpoint run_loop (inputs : list Input) : M LoopEnd :=
  match inputs with
  | [] => ret Reading
  | i :: rest =>
      if Key.eqb (in_key i) Key.CONTROL_X then ret Exited
      else loop_body i ;; run_loop rest
  end.

Definition help_text : string :=
  ("Right:  Move Right" ++ nl ++
   "Left:   Move Left" ++ nl ++
   "Up:     Rotate" ++ nl ++
   "Down:   Speed up Fall" ++ nl ++
   "Space:  Fall to Ground" ++ nl ++
   "Enter:  New Game" ++ nl ++
   "Esc:    Pause Game" ++ nl ++
   "Ctrl-X: Exit Game")%string.

Definition _init_msg_panel : M unit :=
  emit (MsgPutText "Termtris" None (Some CENTER)) ;;
  emit (MsgAddSeparator None) ;;
  emit (MsgPutText help_text None None) ;;
  emit (MsgAddSeparator None) ;;
  s <- get ;;
  emit (MsgAddSeparator (Some (stat_sect_row s))) ;;
  emit (MsgTetroPos (stat_sect_row s + 1) 8) ;;
  _renew_game_stat.

Definition run (inputs : list Input) : M LoopEnd :=
  emit ActShow ;;
  emit MsgShow ;;
  _init_msg_panel ;;
  run_loop inputs.

(** [Termtris.__init__], on top of the calls [before] issued earlier. *)
Definition __init__ (before : list Event) (o_row o_col width height : Z)
  : Termtris :=
  mkTermtris (new_backend width height) 0 0 None 0 (height - 5)
             (before ++
              [NewActivePanel o_row o_col width height;
               NewMessagePanel o_row (o_col + (width + 1) * 2) width height;
               NewBackend width height]).

(** ** Entry point *)

Definition dims_msg : string :=
  "The width must be no less than 12 and the height 20".
Definition screen_msg : string := "Screen too small to fit game".

(** [main] either fails before the game object exists, with nothing
    called, or builds the object and runs it. *)
Inductive MainOutcome : Type :=
| Failed (e : Exn)
| Ran (o : Outcome LoopEnd).

(** The conditional expression that yields [width, height]. [py_int] is
    the builtin [int] on a command-line word. *)
Definition parse_args (py_int : string -> Exn + Z) (argv : list string)
  : Exn + (Z * Z) :=
  if (List.length argv <? 3)%nat then inr (12, 20)
  else
    match py_int (nth 1 argv EmptyString) with
    | inl e => inl e
    | inr w =>
        match py_int (nth 2 argv EmptyString) with
        | inl e => inl e
        | inr h => inr (w, h)
        end
    end.

(** The [finally] clause. *)
Definition cleanup : M unit :=
  emit (SetParams None None) ;;
  emit ResetColor ;;
  emit CursorShowCursor ;;
  emit CursorRestoreScreen.

Definition finally {A} (o : Outcome A) : Outcome A :=
  match o with
  | Ok a s => bind cleanup (fun _ => ret a) s
  | Raise e s => bind cleanup (fun _ => raise e) s
  end.

(** [term_size] is what [os.get_terminal_size()] returns, columns
    first. *)
Definition main (py_int : string -> Exn + Z) (argv : list string)
           (term_size : Z * Z) (inputs : list Input) : MainOutcome :=
  match parse_args py_int argv with
  | inl e => Failed e
  | inr (width, height) =>
      if (width <? 12) || (height <? 20) then Failed (ValueError dims_msg)
      else
        let (scr_width, scr_height) := term_size in
        let o_row := Z.min ((scr_height - (height + 2)) / 2 + 1) 5 in
        let o_col := (scr_width - (width * 2 + 3) * 2) / 2 + 1 in
        if (o_row <=? 0) || (o_col <=? 0)
        then Failed (EnvironmentError screen_msg)
        else
          let setup :=
            [CursorSwitchScreen; CursorClearScreen; CursorHideCursor;
             SetColor "DEEP_KHAKI" "COFFEE";
             SetParams (Some false) (Some false)] in
          Ran (finally (run inputs (__init__ setup o_row o_col width height)))
  end.

End Controller.

Arguments Ok {Tetro B A} a s.
Arguments Raise {Tetro B A} e s.

(** ** Observations on the record of calls *)

(** The backend methods among a list of calls, in order. *)
Definition backend_calls {Tetro : Type} (evs : list (@Event Tetro))
  : list Method :=
  flat_map (fun e => match e with BackendCall m => [m] | _ => [] end) evs.

(** [n] consecutive calls of the idle handler, results dropped. *)
Fixpoint idle_calls {Tetro B : Type} {ops : @Backend Tetro B} (n : nat)
  : M unit :=
  match n with
  | O => ret tt
  | S k => bind _idle_fall (fun _ => idle_calls k)
  end.

(** The calls [main] has issued when it ends: none if it failed before the
    game object was built. *)
Definition main_calls {Tetro B : Type} (o : @MainOutcome Tetro B)
  : list (@Event Tetro) :=
  match o with
  | Failed _ => []
  | Ran r => calls (final r)
  end.

(** The index the loop of [_renew_game_stat] stops at, if any: the position
    of the first level above the score. *)
Fixpoint first_above (sc : Z) (levels : list Z) : option nat :=
  match levels with
  | [] => None
  | level :: rest =>
      if sc <? level then Some O
      else option_map S (first_above sc rest)
  end.

(** The spec's reading of the level table: [i] is the smallest index whose
    threshold strictly exceeds the score. *)
Definition smallest_exceeding (levels : list Z) (sc : Z) (i : nat) : Prop :=
  (exists level, nth_error levels i = Some level /\ sc < level) /\
  (forall j level, (j < i)%nat -> nth_error levels j = Some level ->
                   level <= sc).

(** ** Relations between states

    Used to say what an operation keeps, whether it returns or raises. *)

Section Relations.

Context {Tetro B : Type} {backend_ops : @Backend Tetro B}.

Local Abbreviation Termtris := (@Termtris Tetro B).
Local Abbreviation M := (@M Tetro B).

(** [m] takes every state to a final state related to it by [R], whether
    it returns or raises. *)
Definition keeps (R : Termtris -> Termtris -> Prop) {A} (m : M A) : Prop :=
  forall s, R s (final (m s)).

(** The state after [self.score += pts] and the test against
    [self.highest]. *)
Definition scored (pts : Z) (s : Termtris) : Termtris :=
  let s1 := set_score (score s + pts) s in
  if score s1 >? highest s1 then set_highest (score s1) s1 else s1.

(** What [_act_response] does on a landing with [rows] cleared, up to the
    call of [_update_score]. *)
Definition landed_calls (rows : list Z) : list (@Event Tetro) :=
  ActMergeTetro ::
  match rows with
  | [] => []
  | _ :: _ => [ActBlinkRows rows 3 (1 # 10)%Q; ActRemoveRows rows]
  end.

(** [highest] did not go down. *)
Definition highest_grows (s s' : Termtris) : Prop := highest s <= highest s'.

(** From [s] to [s'] the calls grew by some calls whose backend methods
    are exactly [ms]. *)
Definition issues (ms : list Method) (s s' : Termtris) : Prop :=
  exists new, calls s' = calls s ++ new /\ backend_calls new = ms.

(** The calls only grow. *)
Definition grows (s s' : Termtris) : Prop :=
  exists new, calls s' = calls s ++ new.

(** The [if res:] part of the loop body, on its own. *)
Definition respond (res : @HandlerRes Tetro) : M unit :=
  if truthy res then
    match res with
    | RAct a => _act_response (res_tetro a) (res_row a) (res_col a)
                              (res_elim_rows a)
    | _ => raise TypeError
    end
  else ret tt.

(** The state after the calls [evs], issued in order. *)
Definition add_calls (evs : list (@Event Tetro)) (s : Termtris) : Termtris :=
  fold_left (fun s e => add_call e s) evs s.

(** [m] keeps the property [I] of states, whether it returns or raises. *)
Definition inv_kept (I : Termtris -> Prop) {A} (m : M A) : Prop :=
  forall s, I s -> I (final (m s)).

(** The speed the level table gives a score: the number of levels minus
    the index of the first threshold above it, and 1 when no threshold is
    above it. *)
Definition speed_of (sc : Z) : Z :=
  match first_above sc _LEVEL_TABLE with
  | Some i => Z.of_nat (List.length _LEVEL_TABLE) - Z.of_nat i
  | None => 1
  end.

(** What holds of the counters between two turns of a running game. *)
Definition consistent (s : Termtris) : Prop :=
  0 <= score s <= highest s /\
  speed s = Some (speed_of (score s)) /\
  0 <= tick s < 8.

(** A backend answer whose cleared rows, if any, fit the score table. *)
Definition rows_ok (r : option (@ActResult Tetro)) : Prop :=
  match r with
  | Some a =>
      match res_elim_rows a with
      | Some rows => (List.length rows <= 4)%nat
      | None => True
      end
  | None => True
  end.

(** A backend that, on the states satisfying [Binv], answers its actions
    with at most four cleared rows, returns [None] from [print_grid], and
    stays within [Binv]. *)
Definition well_behaved (Binv : B -> Prop) : Prop :=
  forall b, Binv b ->
    (forall op,
        In op [kick_off; move_down; fall_down; rotate; move_right; move_left] ->
        rows_ok (fst (op b)) /\ Binv (snd (op b))) /\
    fst (print_grid b) = RNone /\ Binv (snd (print_grid b)).

(** The calls of [_init_msg_panel], before the statistics. *)
Definition init_calls (row : Z) : list (@Event Tetro) :=
  [MsgPutText "Termtris" None (Some CENTER);
   MsgAddSeparator None;
   MsgPutText help_text None None;
   MsgAddSeparator None;
   MsgAddSeparator (Some row);
   MsgTetroPos (row + 1) 8].

(** A handler result the loop can respond to without raising: a false
    value, or a tuple whose cleared rows fit the score table. *)
Definition res_ok (res : @HandlerRes Tetro) : Prop :=
  truthy res = false \/ exists a, res = RAct a /\ rows_ok (Some a).

(** What [main] calls before it builds the game object, and what its
    [finally] clause calls. *)
Definition setup_calls : list (@Event Tetro) :=
  [CursorSwitchScreen; CursorClearScreen; CursorHideCursor;
   SetColor "DEEP_KHAKI" "COFFEE"; SetParams (Some false) (Some false)].

Definition cleanup_calls : list (@Event Tetro) :=
  [SetParams None None; ResetColor; CursorShowCursor; CursorRestoreScreen].

End Relations.

(** ** A scripted backend

    A stand-in for the engine, to run the controller on concrete inputs: it
    answers each action with the next entry of a script and [None] once
    the script is used up. *)
Module Scripted.

Inductive Piece : Type := PI | PO | PT | PS | PZ | PJ | PL.

Definition Script : Type := list (option (@ActResult Piece)).

Definition answer (b : Script) : option (@ActResult Piece) * Script :=
  match b with
  | [] => (None, [])
  | r :: rest => (r, rest)
  end.

#[global] Instance ops : @Backend Piece Script := {|
  new_backend := fun _ _ => [];
  next_tetro := fun _ => PT;
  kick_off := answer;
  move_down := answer;
  fall_down := answer;
  rotate := answer;
  move_right := answer;
  move_left := answer;
  print_grid := fun b => (RNone, b)
|}.

(** A game in progress with the given counters. *)
Definition game (script : Script) (sc hi : Z) (sp : option Z) (tk : Z)
  : @Termtris Piece Script :=
  mkTermtris script sc hi sp tk 15 [].

Definition moved : option (@ActResult Piece) :=
  Some (mkActResult PL 3 5 None).

Definition landed (rows : list Z) : option (@ActResult Piece) :=
  Some (mkActResult PL 0 5 (Some rows)).

(** The same backend, built with a script to play. *)
Definition from_script (script : Script) : @Backend Piece Script := {|
  new_backend := fun _ _ => script;
  next_tetro := fun _ => PT;
  kick_off := answer;
  move_down := answer;
  fall_down := answer;
  rotate := answer;
  move_right := answer;
  move_left := answer;
  print_grid := fun b => (RNone, b)
|}.

(** A reader for plain decimal words, standing for the builtin [int]. *)
Definition read_int (w : string) : Exn + Z :=
  match NilZero.int_of_string w with
  | Some d => inr (Z.of_int d)
  | None => inl (ValueError "invalid literal for int() with base 10")
  end.

End Scripted.

(** * Properties of the controller *)

Section Facts.

Context {Tetro B : Type} {backend_ops : @Backend Tetro B}.

Local Abbreviation Termtris := (@Termtris Tetro B).
Local Abbreviation M := (@M Tetro B).

(** ** Relations kept along a computation *)

Section Keeps.
Variable R : Termtris -> Termtris -> Prop.
Hypothesis R_refl : forall s, R s s.
Hypothesis R_trans : forall s1 s2 s3, R s1 s2 -> R s2 s3 -> R s1 s3.

Lemma keeps_ret A (a : A) : keeps R (ret a).
Proof. intro s. apply R_refl. Qed.

Lemma keeps_raise A (e : Exn) : keeps R (@raise _ _ A e).
Proof. intro s. apply R_refl. Qed.

Lemma keeps_get : keeps R get.
Proof. intro s. apply R_refl. Qed.

Lemma keeps_modify f : (forall s, R s (f s)) -> keeps R (modify f).
Proof. intros H s. apply H. Qed.

Lemma keeps_bind A C (m : M A) (k : A -> M C) :
  keeps R m -> (forall a, keeps R (k a)) -> keeps R (bind m k).
Proof.
  intros Hm Hk s. unfold bind. specialize (Hm s).
  destruct (m s) as [a s' | e s']; simpl in *.
  - eapply R_trans; [exact Hm | apply Hk].
  - exact Hm.
Qed.
End Keeps.

(** ** The level loop in closed form *)

Lemma show_level_eq len i (s : Termtris) :
  show_level len i s =
  Ok tt (set_speed (len - i)
           (add_call (MsgRefreshTetro (next_tetro (backend s)))
              (add_call (MsgPutText (stat_text i (score s) (highest s))
                                    (Some (stat_sect_row s + 1)) None)
                        s))).
Proof. reflexivity. Qed.

Lemma renew_loop_first_above levels : forall len i (s : Termtris),
  renew_loop len i levels s =
  match first_above (score s) levels with
  | Some j => show_level len (i + Z.of_nat j) s
  | None => Ok tt s
  end.
Proof.
  induction levels as [| level rest IH]; intros len i s.
  - reflexivity.
  - cbn [renew_loop first_above]. unfold bind at 1, get at 1.
    destruct (score s <? level).
    + cbn [Z.of_nat]. now rewrite Z.add_0_r.
    + rewrite IH. destruct (first_above (score s) rest) as [j |]; cbn.
      * now replace (i + 1 + Z.of_nat j) with (i + Z.pos (Pos.of_succ_nat j))
          by lia.
      * reflexivity.
Qed.

Lemma first_above_spec levels sc : forall i,
  first_above sc levels = Some i <-> smallest_exceeding levels sc i.
Proof.
  induction levels as [| level rest IH]; intro i; cbn [first_above].
  - split; [discriminate |].
    intros [[l [Hl _]] _]. destruct i; discriminate.
  - destruct (Z.ltb_spec sc level) as [Hlt | Hge].
    + split.
      * intros [= <-]. split.
        -- exists level. now split.
        -- intros j l Hj. lia.
      * intros [[l [Hl Hsc]] Hmin]. destruct i as [| i]; [reflexivity |].
        specialize (Hmin O level ltac:(lia) eq_refl). lia.
    + destruct i as [| i].
      * split.
        -- destruct (first_above sc rest); discriminate.
        -- intros [[l [[= <-] Hsc]] _]. lia.
      * specialize (IH i). split.
        -- intro H. destruct (first_above sc rest) as [j |] eqn:E;
             [| discriminate].
           injection H as ->. destruct IH as [IH _].
           destruct (IH eq_refl) as [[l [Hl Hsc]] Hmin]. split.
           ++ exists l. now split.
           ++ intros [| j] l' Hj Hl'.
              ** injection Hl' as <-. exact Hge.
              ** apply (Hmin j); [lia | exact Hl'].
        -- intros [[l [Hl Hsc]] Hmin]. destruct IH as [_ IH].
           rewrite IH; [reflexivity |]. split.
           ++ exists l. now split.
           ++ intros j l' Hj Hl'. apply (Hmin (S j)); [lia | exact Hl'].
Qed.

Lemma first_above_table sc :
  (sc < 80000000 ->
   exists i, first_above sc _LEVEL_TABLE = Some i /\ (i < 8)%nat) /\
  (80000000 <= sc -> first_above sc _LEVEL_TABLE = None).
Proof.
  unfold _LEVEL_TABLE; cbn [first_above]. split; intro H.
  - repeat match goal with
           | |- context [?a <? ?b] => destruct (Z.ltb_spec a b)
           end; cbn [option_map];
      try (eexists; split; [reflexivity | lia]); lia.
  - repeat match goal with
           | |- context [?a <? ?b] => destruct (Z.ltb_spec a b); try lia
           end; reflexivity.
Qed.

Lemma renew_game_stat_eq (s : Termtris) :
  _renew_game_stat s =
  match first_above (score s) _LEVEL_TABLE with
  | Some i => show_level 8 (Z.of_nat i) s
  | None => Ok tt s
  end.
Proof.
  unfold _renew_game_stat. rewrite renew_loop_first_above.
  destruct (first_above (score s) _LEVEL_TABLE); reflexivity.
Qed.

(** ** Score updates in closed form *)

Lemma update_score_eq k pts (s : Termtris) :
  nth_error _SCORE_TABLE k = Some pts ->
  _update_score k s = _renew_game_stat (scored pts s).
Proof.
  intro H. unfold _update_score, tuple_index, scored.
  rewrite H. unfold bind, ret, modify, get. cbn [score highest set_score].
  destruct (score s + pts >? highest s); reflexivity.
Qed.

Lemma update_score_out_of_range k (s : Termtris) :
  nth_error _SCORE_TABLE k = None ->
  _update_score k s = Raise IndexError s.
Proof.
  intro H. unfold _update_score, tuple_index. now rewrite H.
Qed.

Lemma score_table_entry k :
  (k <= 4)%nat ->
  exists pts, nth_error _SCORE_TABLE k = Some pts /\
              nth k _SCORE_TABLE 0 = pts /\ 10 <= pts.
Proof.
  intro H. do 5 (destruct k as [| k];
                 [eexists; repeat split; cbn; lia |]). lia.
Qed.

Lemma scored_fields pts (s : Termtris) :
  score (scored pts s) = score s + pts /\
  highest (scored pts s) = Z.max (highest s) (score s + pts) /\
  backend (scored pts s) = backend s /\
  speed (scored pts s) = speed s /\
  tick (scored pts s) = tick s /\
  stat_sect_row (scored pts s) = stat_sect_row s /\
  calls (scored pts s) = calls s.
Proof.
  unfold scored. cbn [score highest set_score].
  destruct (Z.gtb_spec (score s + pts) (highest s)); cbn; repeat split; lia.
Qed.

(** [_renew_game_stat] always returns, and touches only [speed] and the
    message panel. *)
Lemma renew_game_stat_fields (s : Termtris) :
  exists s', _renew_game_stat s = Ok tt s' /\
    score s' = score s /\ highest s' = highest s /\
    backend s' = backend s /\ tick s' = tick s /\
    stat_sect_row s' = stat_sect_row s /\
    exists new, calls s' = calls s ++ new /\ backend_calls new = [].
Proof.
  rewrite renew_game_stat_eq.
  destruct (first_above (score s) _LEVEL_TABLE) as [i |].
  - rewrite show_level_eq. eexists. split; [reflexivity |].
    cbn [score highest backend tick stat_sect_row calls set_speed add_call].
    repeat split. eexists. split.
    + rewrite <- app_assoc. reflexivity.
    + reflexivity.
  - exists s. repeat split. exists []. now rewrite app_nil_r.
Qed.

(** ** Level and speed *)

(** C4: when [i] is the smallest index whose threshold strictly exceeds
    the score, [_renew_game_stat] displays level [i + 1] and sets the
    speed to [len(_LEVEL_TABLE) - i]; a state whose smallest index is
    larger (a higher level) gets a strictly smaller speed. *)
Theorem renew_level_and_speed (s : Termtris) (i : nat)
  (Hi : smallest_exceeding _LEVEL_TABLE (score s) i) :
  _renew_game_stat s =
    Ok tt
      (set_speed (Z.of_nat (List.length _LEVEL_TABLE) - Z.of_nat i)
         (add_call (MsgRefreshTetro (next_tetro (backend s)))
            (add_call
               (MsgPutText
                  ("Next Tetro:" ++ nl ++
                   "Level: " ++ str_of_int (Z.of_nat i + 1) ++ nl ++
                   "Score: " ++ fmt_left6 (score s) ++ nl ++
                   "Highest: " ++ fmt_left6 (highest s))%string
                  (Some (stat_sect_row s + 1)) None)
               s))) /\
  forall (s2 : Termtris) (i2 : nat),
    smallest_exceeding _LEVEL_TABLE (score s2) i2 ->
    (i < i2)%nat ->
    exists n n2,
      speed (final (_renew_game_stat s)) = Some n /\
      speed (final (_renew_game_stat s2)) = Some n2 /\
      n2 < n.
Proof.
  apply first_above_spec in Hi. split.
  - rewrite renew_game_stat_eq, Hi. reflexivity.
  - intros s2 i2 Hi2 Hlt. apply first_above_spec in Hi2.
    rewrite !renew_game_stat_eq, Hi, Hi2, !show_level_eq.
    cbn [final speed set_speed]. do 2 eexists.
    repeat split. lia.
Qed.

(** C10: [_renew_game_stat] assigns [speed] exactly when the score is
    below the largest threshold, 80,000,000, and then to a value from 1
    to 8; at or above it the call changes nothing, so a [speed] that was
    never assigned stays unassigned. *)
Theorem renew_assigns_speed_below_top (s : Termtris) :
  (In 80000000 _LEVEL_TABLE /\
   Forall (fun level => level <= 80000000) _LEVEL_TABLE) /\
  (score s < 80000000 ->
   exists s' n, _renew_game_stat s = Ok tt s' /\
                speed s' = Some n /\ 1 <= n <= 8) /\
  (80000000 <= score s ->
   _renew_game_stat s = Ok tt s /\
   (speed s = None -> speed (final (_renew_game_stat s)) = None)).
Proof.
  destruct (first_above_table (score s)) as [Hlt Hge]. split; [| split].
  - split.
    + cbn. tauto.
    + unfold _LEVEL_TABLE. repeat constructor; lia.
  - intro H. destruct (Hlt H) as [i [Hi Hi8]].
    rewrite renew_game_stat_eq, Hi, show_level_eq.
    do 2 eexists. split; [reflexivity |]. cbn [speed set_speed].
    split; [reflexivity | lia].
  - intro H. rewrite renew_game_stat_eq, (Hge H). split; [reflexivity |].
    intro Hs. exact Hs.
Qed.

(** ** Landing and scoring *)

Lemma score_table_increasing j k :
  (j < k <= 4)%nat -> nth j _SCORE_TABLE 0 < nth k _SCORE_TABLE 0.
Proof.
  intro H.
  do 5 (destruct k as [| k]; [do 4 (destruct j as [| j]; [cbn; lia |]); lia |]).
  lia.
Qed.

Lemma act_response_moved tetro row col (s : Termtris) :
  _act_response tetro row col None s =
  Ok tt (add_call (ActRefreshTetro tetro row col) s).
Proof. reflexivity. Qed.

(** A landing up to the score update: the merge and, for a non-empty
    list, the blink and the removal. *)
Lemma act_response_merge tetro row col rows (s : Termtris) :
  exists s1,
    _act_response tetro row col (Some rows) s =
      bind (_update_score (List.length rows))
           (fun _ => emit (ActRefreshTetro tetro row col)) s1 /\
    score s1 = score s /\ highest s1 = highest s /\
    backend s1 = backend s /\ tick s1 = tick s /\
    calls s1 = calls s ++ landed_calls rows.
Proof.
  destruct rows; eexists; (split; [reflexivity |]); cbn;
    repeat split; now rewrite <- ?app_assoc.
Qed.

Lemma act_response_too_many tetro row col rows (s : Termtris) :
  nth_error _SCORE_TABLE (List.length rows) = None ->
  exists s1, _act_response tetro row col (Some rows) s = Raise IndexError s1 /\
             calls s1 = calls s ++ landed_calls rows.
Proof.
  intro H. destruct (act_response_merge tetro row col rows s)
    as [s1 [E1 [_ [_ [_ [_ Hc]]]]]].
  exists s1. split; [| exact Hc].
  rewrite E1. unfold bind. now rewrite (update_score_out_of_range _ _ H).
Qed.

Lemma landed_calls_merge rows : In (@ActMergeTetro Tetro) (landed_calls rows).
Proof. now left. Qed.

Lemma landed_calls_remove rows rows0 :
  In (@ActRemoveRows Tetro rows0) (landed_calls rows) <->
  rows = rows0 /\ rows0 <> [].
Proof.
  destruct rows as [| r rows]; cbn; split.
  - intros [H | []]. discriminate.
  - intros [<- H]. contradiction.
  - intros [H | [H | [H | []]]]; try discriminate.
    injection H as <-. split; [reflexivity | discriminate].
  - intros [<- _]. tauto.
Qed.

Lemma act_response_landed tetro row col rows pts (s : Termtris) :
  nth_error _SCORE_TABLE (List.length rows) = Some pts ->
  exists s' shown,
    _act_response tetro row col (Some rows) s = Ok tt s' /\
    score s' = score s + pts /\
    highest s' = Z.max (highest s) (score s + pts) /\
    backend s' = backend s /\ tick s' = tick s /\
    backend_calls shown = [] /\
    (forall e, In e shown ->
               (exists t r a, e = MsgPutText t r a) \/
               (exists t, e = MsgRefreshTetro t)) /\
    calls s' = calls s ++ landed_calls rows ++ shown ++
                          [ActRefreshTetro tetro row col].
Proof.
  intro Hpts.
  destruct (act_response_merge tetro row col rows s)
    as [s1 [E1 [Hsc [Hhi [Hb [Ht Hc]]]]]].
  destruct (renew_game_stat_fields (scored pts s1))
    as [s2 [E2 [Hsc2 [Hhi2 [Hb2 [Ht2 [_ [new [Hc2 Hq]]]]]]]]].
  destruct (scored_fields pts s1) as [Fs [Fh [Fb [_ [Ft [_ Fc]]]]]].
  assert (Hshown : forall e, In e new ->
               (exists t r a, e = MsgPutText t r a) \/
               (exists t, e = MsgRefreshTetro t)).
  { revert E2 Hc2. rewrite renew_game_stat_eq.
    destruct (first_above (score (scored pts s1)) _LEVEL_TABLE).
    - rewrite show_level_eq. intros [= <-]. cbn [calls set_speed add_call].
      rewrite <- app_assoc. intro H. apply app_inv_head in H. subst new.
      intros e [<- | [<- | []]]; [left | right]; eauto.
    - intros [= <-]. intro H. rewrite <- (app_nil_r (calls _)) in H at 1.
      apply app_inv_head in H. subst new. intros e []. }
  exists (add_call (ActRefreshTetro tetro row col) s2), new.
  split.
  - rewrite E1. unfold bind.
    rewrite (update_score_eq _ pts _ Hpts), E2. reflexivity.
  - cbn [score highest backend tick calls add_call].
    rewrite Hsc2, Hhi2, Hb2, Ht2, Hc2, Fs, Fh, Fb, Ft, Fc, Hsc, Hhi, Hb, Ht, Hc.
    repeat split; try assumption. now rewrite <- !app_assoc.
Qed.

Lemma new_game_fields (s : Termtris) :
  exists s', _new_game s = Ok (of_backend (fst (kick_off (backend s)))) s' /\
             score s' = 10 /\ highest s' = Z.max (highest s) 10 /\
             backend s' = snd (kick_off (backend s)) /\ tick s' = tick s /\
             exists new, calls s' = calls s ++ new /\
                         backend_calls new = [Kick_off].
Proof.
  unfold _new_game, call_backend, emit, modify, get, ret, bind.
  cbn [backend add_call].
  destruct (kick_off (backend s)) as [r b'] eqn:E.
  rewrite (update_score_eq 0 10) by reflexivity.
  match goal with
  | |- context [_renew_game_stat (scored 10 ?s0)] =>
      destruct (renew_game_stat_fields (scored 10 s0))
        as [s2 [E2 [Hsc2 [Hhi2 [Hb2 [Ht2 [_ [new [Hc2 Hq]]]]]]]]];
      destruct (scored_fields 10 s0) as [Fs [Fh [Fb [_ [Ft [_ Fc]]]]]]
  end.
  rewrite E2. exists s2. split; [reflexivity |].
  rewrite Hsc2, Hhi2, Hb2, Ht2, Fs, Fh, Fb, Ft. cbn.
  repeat split.
  exists ([ActClear; BackendCall Kick_off] ++ new). split.
  - rewrite Hc2, Fc. cbn. now rewrite <- !app_assoc.
  - unfold backend_calls in *. rewrite flat_map_app, Hq. reflexivity.
Qed.

(** C8: a new game ends with the score at the table entry for zero rows,
    10: the score is reset to 0 and [_update_score(0)] is applied. *)
Theorem new_game_score_is_ten (s : Termtris) :
  nth_error _SCORE_TABLE 0 = Some 10 /\
  exists s', _new_game s = Ok (of_backend (fst (kick_off (backend s)))) s' /\
             score s' = 10 /\ score s' <> 0.
Proof.
  split; [reflexivity |].
  destruct (new_game_fields s) as [s' [E [Hs _]]].
  exists s'. split; [exact E |]. split; [exact Hs | lia].
Qed.

(** C3: a landing that clears [k <= 4] rows adds entry [k] of the score
    table to the score, and the table is strictly increasing. *)
Theorem landing_adds_table_entry tetro row col rows (s : Termtris)
  (Hk : (List.length rows <= 4)%nat) :
  (exists s', _act_response tetro row col (Some rows) s = Ok tt s' /\
              score s' = score s + nth (List.length rows) _SCORE_TABLE 0) /\
  (forall j k, (j < k <= 4)%nat ->
               nth j _SCORE_TABLE 0 < nth k _SCORE_TABLE 0).
Proof.
  split; [| exact score_table_increasing].
  destruct (score_table_entry _ Hk) as [pts [Hn [Hnth _]]].
  destruct (act_response_landed tetro row col rows pts s Hn)
    as [s' [shown [E [Hsc _]]]].
  exists s'. split; [exact E |]. now rewrite Hnth.
Qed.

(** C1: [_act_response] treats the piece as landed exactly when the
    cleared-rows component is present: it merges the piece iff the
    component is not [None], and removes rows iff it is a non-empty list.
    For a list a landing can produce (at most four rows, the domain of the
    score table) it returns, and has changed the score iff the component
    is present; a present empty list scores the zero-rows entry. *)
Theorem act_response_landing_signal tetro row col elim (s : Termtris) :
  (exists new,
      calls (final (_act_response tetro row col elim s)) = calls s ++ new /\
      (In ActMergeTetro new <-> elim <> None) /\
      (forall rows, In (ActRemoveRows rows) new <->
                    elim = Some rows /\ rows <> [])) /\
  ((forall rows, elim = Some rows -> (List.length rows <= 4)%nat) ->
   exists s',
     _act_response tetro row col elim s = Ok tt s' /\
     (score s' <> score s <-> elim <> None) /\
     (elim = Some [] -> score s' = score s + 10)).
Proof.
  destruct elim as [rows |].
  - split.
    + assert (H : exists new,
          calls (final (_act_response tetro row col (Some rows) s))
            = calls s ++ landed_calls rows ++ new /\
          forall e, In e new -> e <> ActMergeTetro /\
                                forall r, e <> ActRemoveRows r).
      { destruct (nth_error _SCORE_TABLE (List.length rows)) as [pts |] eqn:Hn.
        - destruct (act_response_landed tetro row col rows pts s Hn)
            as [s' [shown [E [_ [_ [_ [_ [_ [Hshown Hc]]]]]]]]].
          rewrite E. exists (shown ++ [ActRefreshTetro tetro row col]).
          split; [exact Hc |]. intros e Hin.
          apply in_app_or in Hin. destruct Hin as [Hin | [<- | []]].
          + destruct (Hshown _ Hin) as [[t [r [a ->]]] | [t ->]];
              split; try discriminate; intro; discriminate.
          + split; try discriminate; intro; discriminate.
        - destruct (act_response_too_many tetro row col rows s Hn)
            as [s1 [E Hc]].
          rewrite E. exists []. split; [now rewrite app_nil_r |].
          intros e []. }
      destruct H as [new [Hc Hnew]].
      exists (landed_calls rows ++ new). split; [exact Hc |]. split.
      * split; [discriminate |]. intros _. apply in_or_app. left.
        apply landed_calls_merge.
      * intro rows0. split.
        -- intro Hin. apply in_app_or in Hin. destruct Hin as [Hin | Hin].
           ++ apply landed_calls_remove in Hin. destruct Hin as [-> Hne].
              now split.
           ++ destruct (Hnew _ Hin) as [_ Hr]. now elim (Hr rows0).
        -- intros [[= <-] Hne]. apply in_or_app. left.
           now apply landed_calls_remove.
    + intro Hrows.
      destruct (score_table_entry _ (Hrows rows eq_refl))
        as [pts [Hn [Hnth Hpts]]].
      destruct (act_response_landed tetro row col rows pts s Hn)
        as [s' [shown [E [Hsc _]]]].
      exists s'. split; [exact E |]. split.
      * split; [discriminate |]. intros _. lia.
      * intros [= ->]. rewrite Hsc. cbn in Hn. injection Hn as <-.
        reflexivity.
  - rewrite act_response_moved. cbn [final calls score add_call]. split.
    + exists [ActRefreshTetro tetro row col]. split; [reflexivity |]. split.
      * split; [| congruence]. intros [H | []]. discriminate.
      * intro rows0. split.
        -- intros [H | []]. discriminate.
        -- intros [H _]. discriminate.
    + intros _. eexists. split; [reflexivity |]. cbn [score add_call]. split.
      * split; congruence.
      * discriminate.
Qed.

(** ** What every operation keeps *)

(** A relation kept by every change of a field that leaves the calls alone
    and does not lower [highest], and by every call to a panel, is kept by
    the operations that only score and display. *)
Section KeepsDisplay.
Variable R : Termtris -> Termtris -> Prop.
Hypothesis R_refl : forall s, R s s.
Hypothesis R_trans : forall s1 s2 s3, R s1 s2 -> R s2 s3 -> R s1 s3.
Hypothesis R_fields : forall s s',
  calls s' = calls s -> highest s <= highest s' -> R s s'.
Hypothesis R_panel : forall e s, backend_calls [e] = [] -> R s (add_call e s).

Lemma keeps_emit_panel e : backend_calls [e] = [] -> keeps R (emit e).
Proof. intros H s. apply R_panel, H. Qed.

Lemma keeps_renew_game_stat : keeps R _renew_game_stat.
Proof.
  intro s. rewrite renew_game_stat_eq.
  destruct (first_above (score s) _LEVEL_TABLE); [| apply R_refl].
  rewrite show_level_eq. cbn [final].
  match goal with
  | |- R _ (set_speed _ (add_call ?e2 (add_call ?e1 _))) =>
      apply (R_trans _ (add_call e1 s)); [apply R_panel; reflexivity |];
      apply (R_trans _ (add_call e2 (add_call e1 s)));
      [apply R_panel; reflexivity |]
  end.
  apply R_fields; cbn; [reflexivity | lia].
Qed.

Lemma keeps_update_score k : keeps R (_update_score k).
Proof.
  intro s. destruct (nth_error _SCORE_TABLE k) as [pts |] eqn:E.
  - rewrite (update_score_eq _ _ _ E).
    eapply R_trans; [| apply keeps_renew_game_stat].
    destruct (scored_fields pts s) as [_ [Hh [_ [_ [_ [_ Hc]]]]]].
    apply R_fields; [exact Hc | lia].
  - rewrite (update_score_out_of_range _ _ E). apply R_refl.
Qed.

Lemma keeps_act_response tetro row col elim :
  keeps R (_act_response tetro row col elim).
Proof.
  unfold _act_response.
  apply (keeps_bind R R_trans); [| intros _; now apply keeps_emit_panel].
  destruct elim as [rows |]; [| apply (keeps_ret R R_refl)].
  apply (keeps_bind R R_trans); [now apply keeps_emit_panel | intros _].
  apply (keeps_bind R R_trans); [| intros _; apply keeps_update_score].
  destruct rows; [apply (keeps_ret R R_refl) |].
  apply (keeps_bind R R_trans); [| intros _]; now apply keeps_emit_panel.
Qed.

(** The [if res:] part of the loop body. *)
Lemma keeps_respond (res : @HandlerRes Tetro) :
  keeps R (if truthy res then
             match res with
             | RAct a => _act_response (res_tetro a) (res_row a) (res_col a)
                                       (res_elim_rows a)
             | _ => raise TypeError
             end
           else ret tt).
Proof.
  destruct res as [| [|] | a]; cbn [truthy];
    first [apply (keeps_ret R R_refl) | apply (keeps_raise R R_refl)
          | apply keeps_act_response].
Qed.

(** If the relation is also kept by calls to the backend, it is kept by
    every handler and by the whole loop. *)
Hypothesis R_backend : forall m b s,
  R s (set_backend b (add_call (BackendCall m) s)).

Lemma keeps_call_backend A m (f : B -> A * B) : keeps R (call_backend m f).
Proof.
  intro s. unfold call_backend, bind, get, emit, modify, ret.
  cbn [backend add_call]. destruct (f (backend s)) as [r b']. apply R_backend.
Qed.

Lemma keeps_new_game : keeps R _new_game.
Proof.
  unfold _new_game.
  apply (keeps_bind R R_trans); [now apply keeps_emit_panel | intros _].
  apply (keeps_bind R R_trans); [apply keeps_call_backend | intros res].
  apply (keeps_bind R R_trans).
  { apply keeps_modify. intro s. apply R_fields; cbn; [reflexivity | lia]. }
  intros _.
  apply (keeps_bind R R_trans); [apply keeps_update_score | intros _].
  apply (keeps_ret R R_refl).
Qed.

Lemma keeps_idle_fall : keeps R _idle_fall.
Proof.
  intro s. unfold _idle_fall. unfold bind at 1, get at 1.
  destruct (speed s) as [n |]; [| apply R_refl].
  destruct (n =? 0); [apply R_refl |].
  generalize ((tick s + 1) mod n). intro v. revert s.
  apply (keeps_bind R R_trans).
  { apply keeps_modify. intro s. apply R_fields; cbn; [reflexivity | lia]. }
  intros _. apply (keeps_bind R R_trans); [apply (keeps_get R R_refl) |].
  intro s'. destruct (tick s' =? 0); [| apply (keeps_ret R R_refl)].
  apply (keeps_bind R R_trans); [apply keeps_call_backend | intros r].
  apply (keeps_ret R R_refl).
Qed.

Lemma keeps_handler g key :
  keeps R (dict_get (key_funcs g) key _idle_fall).
Proof.
  destruct key; cbn [dict_get key_funcs Key.eqb];
    try apply keeps_idle_fall; try apply keeps_new_game;
    try apply (keeps_ret R R_refl);
    try apply keeps_call_backend;
    unfold backend_method;
    (apply (keeps_bind R R_trans);
       [apply keeps_call_backend | intros r; apply (keeps_ret R R_refl)]).
Qed.

Lemma keeps_loop_body i : keeps R (loop_body i).
Proof.
  unfold loop_body. apply (keeps_bind R R_trans).
  - apply keeps_handler.
  - intro res. apply keeps_respond.
Qed.

Lemma keeps_run_loop inputs : keeps R (run_loop inputs).
Proof.
  induction inputs as [| i rest IH]; cbn [run_loop].
  - apply (keeps_ret R R_refl).
  - destruct (Key.eqb (in_key i) Key.CONTROL_X).
    + apply (keeps_ret R R_refl).
    + apply (keeps_bind R R_trans); [apply keeps_loop_body | intros _; exact IH].
Qed.

Lemma keeps_init_msg_panel : keeps R _init_msg_panel.
Proof.
  unfold _init_msg_panel.
  do 4 (apply (keeps_bind R R_trans); [now apply keeps_emit_panel | intros _]).
  apply (keeps_bind R R_trans); [apply (keeps_get R R_refl) | intro s0].
  do 2 (apply (keeps_bind R R_trans); [now apply keeps_emit_panel | intros _]).
  apply keeps_renew_game_stat.
Qed.

Lemma keeps_run inputs : keeps R (run inputs).
Proof.
  unfold run.
  do 2 (apply (keeps_bind R R_trans); [now apply keeps_emit_panel | intros _]).
  apply (keeps_bind R R_trans); [apply keeps_init_msg_panel | intros _].
  apply keeps_run_loop.
Qed.

End KeepsDisplay.

(** ** The highest score *)

Lemma highest_grows_refl (s : Termtris) : highest_grows s s.
Proof. unfold highest_grows. lia. Qed.

Lemma highest_grows_trans (s1 s2 s3 : Termtris) :
  highest_grows s1 s2 -> highest_grows s2 s3 -> highest_grows s1 s3.
Proof. unfold highest_grows. lia. Qed.

Lemma highest_grows_fields (s s' : Termtris) :
  calls s' = calls s -> highest s <= highest s' -> highest_grows s s'.
Proof. intros _ H. exact H. Qed.

Lemma highest_grows_panel (e : @Event Tetro) (s : Termtris) :
  backend_calls [e] = [] -> highest_grows s (add_call e s).
Proof. intros _. unfold highest_grows. cbn. lia. Qed.

Lemma highest_grows_backend m b (s : Termtris) :
  highest_grows s (set_backend b (add_call (BackendCall m) s)).
Proof. unfold highest_grows. cbn. lia. Qed.

Lemma update_score_bounds k (s s' : Termtris) :
  _update_score k s = Ok tt s' -> score s' <= highest s'.
Proof.
  destruct (nth_error _SCORE_TABLE k) as [pts |] eqn:E.
  - rewrite (update_score_eq _ _ _ E).
    destruct (renew_game_stat_fields (scored pts s))
      as [s2 [E2 [Hsc [Hhi _]]]].
    rewrite E2. intros [= <-]. rewrite Hsc, Hhi.
    destruct (scored_fields pts s) as [Fs [Fh _]]. rewrite Fs, Fh. lia.
  - rewrite (update_score_out_of_range _ _ E). discriminate.
Qed.

(** C9: [highest] never decreases across any controller operation, a new
    game included, which resets [score] only; and after every score update
    [highest >= score]. *)
Theorem highest_never_decreases :
  (forall k (s : Termtris), highest s <= highest (final (_update_score k s))) /\
  (forall (s : Termtris), highest s <= highest (final (_new_game s))) /\
  (forall (s : Termtris), highest s <= highest (final (_idle_fall s))) /\
  (forall t r c e (s : Termtris),
      highest s <= highest (final (_act_response t r c e s))) /\
  (forall i (s : Termtris), highest s <= highest (final (loop_body i s))) /\
  (forall inputs (s : Termtris),
      highest s <= highest (final (run inputs s))) /\
  (forall k (s s' : Termtris),
      _update_score k s = Ok tt s' -> score s' <= highest s') /\
  (forall (s s' : Termtris) res,
      _new_game s = Ok res s' -> score s' = 10 /\ 10 <= highest s') /\
  (forall before o_row o_col width height,
      score (__init__ before o_row o_col width height) = 0 /\
      highest (__init__ before o_row o_col width height) = 0).
Proof.
  pose proof highest_grows_refl as Hr.
  pose proof highest_grows_trans as Ht.
  pose proof highest_grows_fields as Hf.
  pose proof highest_grows_panel as Hp.
  pose proof highest_grows_backend as Hb.
  repeat split.
  - intros k s. now apply (keeps_update_score (@highest_grows Tetro B)).
  - intro s. now apply (keeps_new_game (@highest_grows Tetro B)).
  - intro s. now apply (keeps_idle_fall (@highest_grows Tetro B)).
  - intros t r c e s. now apply (keeps_act_response (@highest_grows Tetro B)).
  - intros i s. now apply (keeps_loop_body (@highest_grows Tetro B)).
  - intros inputs s. now apply (keeps_run (@highest_grows Tetro B)).
  - exact update_score_bounds.
  - destruct (new_game_fields s) as [s2 [E [Hs _]]].
    rewrite E in H. now injection H as _ <-.
  - destruct (new_game_fields s) as [s2 [E [Hs [Hh _]]]].
    rewrite E in H. injection H as _ <-. lia.
Qed.

(** ** Gravity ticks *)

(** One idle call, for an assigned non-zero speed. *)
Lemma idle_fall_eq (s : Termtris) n :
  speed s = Some n -> n <> 0 ->
  _idle_fall s =
  let t1 := (tick s + 1) mod n in
  if t1 =? 0
  then Ok (of_backend (fst (move_down (backend s))))
          (set_backend (snd (move_down (backend s)))
             (add_call (BackendCall Move_down) (set_tick t1 s)))
  else Ok RNone (set_tick t1 s).
Proof.
  intros Hs Hn. unfold _idle_fall, bind, get. rewrite Hs.
  destruct (Z.eqb_spec n 0) as [-> | _]; [contradiction |].
  unfold modify. cbn [tick set_tick]. cbv zeta.
  destruct ((tick s + 1) mod n =? 0); [| reflexivity].
  unfold call_backend, bind, get, emit, modify, ret. cbn [backend set_tick add_call].
  destruct (move_down (backend s)) as [r b']. reflexivity.
Qed.

(** Wraps of the counter: stepping from [t] to [t + 1] crosses a multiple
    of [n] exactly when [(t + 1) mod n = 0]. *)
Lemma wrap_step t n :
  0 < n -> (t + 1) / n - t / n = if (t + 1) mod n =? 0 then 1 else 0.
Proof.
  intro Hn.
  pose proof (Z.div_mod (t + 1) n ltac:(lia)) as H1.
  pose proof (Z.mod_pos_bound (t + 1) n Hn) as B1.
  pose proof (Z.div_mod t n ltac:(lia)) as H0.
  pose proof (Z.mod_pos_bound t n Hn) as B0.
  destruct (Z.eqb_spec ((t + 1) mod n) 0) as [E | E]; nia.
Qed.

Lemma div_shift a k n :
  0 < n -> (a mod n + k) / n - (a mod n) / n = (a + k) / n - a / n.
Proof.
  intro Hn. pose proof (Z.div_mod a n ltac:(lia)) as H.
  replace (a + k) with (a mod n + k + (a / n) * n) by lia.
  rewrite Z.div_add by lia.
  rewrite (Z.div_small (a mod n) n) by (apply Z.mod_pos_bound; lia).
  lia.
Qed.

Lemma wraps_nonneg t k n : 0 < n -> 0 <= k -> 0 <= (t + k) / n - t / n.
Proof.
  intros Hn Hk. pose proof (Z.div_le_mono t (t + k) n Hn ltac:(lia)). lia.
Qed.

(** [k] consecutive idle calls at speed [n]: they return, leave the speed
    alone, and call [move_down] once per multiple of [n] the counter
    passes. *)
Lemma idle_calls_spec k : forall (s : Termtris) n,
  speed s = Some n -> 0 < n ->
  exists s',
    idle_calls k s = Ok tt s' /\
    speed s' = Some n /\
    tick s' mod n = (tick s + Z.of_nat k) mod n /\
    score s' = score s /\ highest s' = highest s /\
    calls s' =
      calls s ++ repeat (BackendCall Move_down)
                        (Z.to_nat ((tick s + Z.of_nat k) / n - tick s / n)).
Proof.
  induction k as [| k IH]; intros s n Hs Hn.
  - exists s. cbn [idle_calls Z.of_nat]. rewrite Z.add_0_r, Z.sub_diag.
    cbn [Z.to_nat repeat]. rewrite app_nil_r. repeat split. exact Hs.
  - cbn [idle_calls]. unfold bind.
    rewrite (idle_fall_eq s n Hs) by lia. cbv zeta.
    set (t1 := (tick s + 1) mod n).
    assert (Hcount :
      (tick s + Z.of_nat (S k)) / n - tick s / n =
      (if t1 =? 0 then 1 else 0) + ((t1 + Z.of_nat k) / n - t1 / n)).
    { unfold t1. rewrite div_shift by lia. rewrite <- wrap_step by lia.
      replace (tick s + 1 + Z.of_nat k) with (tick s + Z.of_nat (S k)) by lia.
      lia. }
    assert (Hmod : (t1 + Z.of_nat k) mod n = (tick s + Z.of_nat (S k)) mod n).
    { unfold t1. rewrite Z.add_mod_idemp_l by lia. f_equal. lia. }
    pose proof (wraps_nonneg t1 (Z.of_nat k) n Hn ltac:(lia)) as Hnn.
    destruct (t1 =? 0).
    + match goal with
      | |- context [idle_calls k ?s1] =>
          destruct (IH s1 n Hs Hn) as [s' [E [Hs' [Ht' [Hsc [Hhi Hc]]]]]]
      end.
      exists s'. split; [exact E |]. split; [exact Hs' |].
      cbn [tick score highest calls set_backend add_call set_tick] in Ht', Hsc, Hhi, Hc.
      repeat split; try assumption; try congruence.
      rewrite Hc, Hcount, Z2Nat.inj_add by lia.
      cbn [Z.to_nat Pos.to_nat Pos.iter_op Nat.add repeat app].
      now rewrite <- app_assoc.
    + match goal with
      | |- context [idle_calls k ?s1] =>
          destruct (IH s1 n Hs Hn) as [s' [E [Hs' [Ht' [Hsc [Hhi Hc]]]]]]
      end.
      exists s'. split; [exact E |]. split; [exact Hs' |].
      cbn [tick score highest calls set_tick] in Ht', Hsc, Hhi, Hc.
      repeat split; try assumption; try congruence.
      rewrite Hc, Hcount. f_equal.
Qed.

(** C5: at speed [n], an idle call advances the counter modulo [n] and
    calls [move_down] exactly when the counter wraps to zero; otherwise it
    returns [None] and changes nothing but the counter. [n] consecutive
    idle calls issue exactly one call, a [move_down]. *)
Theorem idle_fall_gravity (s : Termtris) (n : Z)
  (Hs : speed s = Some n) (Hn : 0 < n) :
  tick (final (_idle_fall s)) = (tick s + 1) mod n /\
  ((tick s + 1) mod n = 0 ->
   exists s', _idle_fall s = Ok (of_backend (fst (move_down (backend s)))) s' /\
              calls s' = calls s ++ [BackendCall Move_down]) /\
  ((tick s + 1) mod n <> 0 ->
   _idle_fall s = Ok RNone (set_tick ((tick s + 1) mod n) s)) /\
  exists s', idle_calls (Z.to_nat n) s = Ok tt s' /\
             calls s' = calls s ++ [BackendCall Move_down].
Proof.
  rewrite (idle_fall_eq s n Hs) by lia. cbv zeta.
  split; [| split; [| split]].
  - destruct ((tick s + 1) mod n =? 0); reflexivity.
  - intros ->. cbn [Z.eqb]. eexists. split; reflexivity.
  - intro H. destruct (Z.eqb_spec ((tick s + 1) mod n) 0); [contradiction |].
    reflexivity.
  - destruct (idle_calls_spec (Z.to_nat n) s n Hs Hn)
      as [s' [E [_ [_ [_ [_ Hc]]]]]].
    exists s'. split; [exact E |]. rewrite Hc.
    rewrite Z2Nat.id by lia.
    replace (tick s + n) with (tick s + 1 * n) by lia.
    rewrite Z.div_add by lia.
    replace (tick s / n + 1 - tick s / n) with 1 by lia. reflexivity.
Qed.

(** ** Dispatch *)

Lemma issues_refl (s : Termtris) : issues [] s s.
Proof. exists []. now rewrite app_nil_r. Qed.

Lemma issues_app ms1 ms2 (s1 s2 s3 : Termtris) :
  issues ms1 s1 s2 -> issues ms2 s2 s3 -> issues (ms1 ++ ms2) s1 s3.
Proof.
  intros [n1 [H1 Q1]] [n2 [H2 Q2]]. exists (n1 ++ n2). split.
  - now rewrite H2, H1, app_assoc.
  - unfold backend_calls in *. now rewrite flat_map_app, Q1, Q2.
Qed.

Lemma quiet_trans (s1 s2 s3 : Termtris) :
  issues [] s1 s2 -> issues [] s2 s3 -> issues [] s1 s3.
Proof. apply (issues_app [] []). Qed.

Lemma quiet_fields (s s' : Termtris) :
  calls s' = calls s -> highest s <= highest s' -> issues [] s s'.
Proof. intros H _. exists []. now rewrite app_nil_r. Qed.

Lemma quiet_panel (e : @Event Tetro) (s : Termtris) :
  backend_calls [e] = [] -> issues [] s (add_call e s).
Proof. intro H. exists [e]. now split. Qed.

Lemma issues_quiet ms (s1 s2 s3 : Termtris) :
  issues ms s1 s2 -> issues [] s2 s3 -> issues ms s1 s3.
Proof. intros H1 H2. rewrite <- (app_nil_r ms). eapply issues_app; eauto. Qed.

Lemma issues_call_backend A m (f : B -> A * B) (s : Termtris) :
  exists r s', call_backend m f s = Ok r s' /\ issues [m] s s'.
Proof.
  unfold call_backend, bind, get, emit, modify, ret. cbn [backend add_call].
  destruct (f (backend s)) as [r b']. do 2 eexists. split; [reflexivity |].
  exists [BackendCall m]. now split.
Qed.

Lemma issues_backend_method m f (s : Termtris) :
  issues [m] s (final (backend_method m f s)).
Proof.
  unfold backend_method, bind.
  destruct (issues_call_backend _ m f s) as [r [s' [E H]]].
  rewrite E. exact H.
Qed.

Lemma issues_idle_fall (s : Termtris) :
  issues [] s (final (_idle_fall s)) \/
  issues [Move_down] s (final (_idle_fall s)).
Proof.
  destruct (speed s) as [n |] eqn:Hs.
  - destruct (Z.eq_dec n 0) as [-> | Hn].
    + left. unfold _idle_fall, bind, get. rewrite Hs. apply issues_refl.
    + rewrite (idle_fall_eq s n Hs Hn). cbv zeta.
      destruct ((tick s + 1) mod n =? 0); [right | left]; cbn [final].
      * exists [BackendCall Move_down]. now split.
      * exists []. cbn. now rewrite app_nil_r.
  - left. unfold _idle_fall, bind, get. rewrite Hs. apply issues_refl.
Qed.

(** The response to a handler's result issues no backend call. *)
Lemma loop_body_issues i ms (s : Termtris) :
  issues ms s (final (dict_get (key_funcs (in_getch i)) (in_key i)
                               _idle_fall s)) ->
  issues ms s (final (loop_body i s)).
Proof.
  intro H. unfold loop_body, bind.
  destruct (dict_get (key_funcs (in_getch i)) (in_key i) _idle_fall s)
    as [res s1 | e s1]; cbn [final] in *; [| exact H].
  eapply issues_quiet; [exact H |].
  apply (keeps_respond (@issues Tetro B []) issues_refl quiet_trans
                       quiet_fields quiet_panel res s1).
Qed.

Lemma run_loop_exit inputs : forall (s s' : Termtris),
  run_loop inputs s = Ok Exited s' -> In Key.CONTROL_X (map in_key inputs).
Proof.
  induction inputs as [| i rest IH]; intros s s'; cbn [run_loop map].
  - discriminate.
  - destruct (Key.eqb (in_key i) Key.CONTROL_X) eqn:E.
    + intros _. left. destruct (in_key i); try discriminate. reflexivity.
    + unfold bind. destruct (loop_body i s) as [[] s1 | e s1];
        [| discriminate].
      intro H. right. exact (IH _ _ H).
Qed.

(** C6: each turn of the loop issues at most one backend call, the one
    bound to the key: Enter [kick_off], Down [move_down], Space
    [fall_down], Up [rotate], Right [move_right], Left [move_left]; no key
    or an unbound key takes the idle path; and the loop leaves only
    through the quit key. *)
Theorem loop_dispatch (i : Input) (s : Termtris) :
  dict_get (key_funcs (in_getch i)) (in_key i) _idle_fall =
    match in_key i with
    | Key.ENTER => _new_game
    | Key.DOWN => backend_method Move_down move_down
    | Key.SPACE => backend_method Fall_down fall_down
    | Key.UP => backend_method Rotate rotate
    | Key.RIGHT => backend_method Move_right move_right
    | Key.LEFT => backend_method Move_left move_left
    | Key.ESC => pause (in_getch i)
    | Key.CONTROL_D => call_backend Print_grid print_grid
    | Key.NONE | Key.OTHER _ | Key.CONTROL_X => _idle_fall
    end /\
  (exists new,
      calls (final (loop_body i s)) = calls s ++ new /\
      (List.length (backend_calls new) <= 1)%nat /\
      match in_key i with
      | Key.ENTER => backend_calls new = [Kick_off]
      | Key.DOWN => backend_calls new = [Move_down]
      | Key.SPACE => backend_calls new = [Fall_down]
      | Key.UP => backend_calls new = [Rotate]
      | Key.RIGHT => backend_calls new = [Move_right]
      | Key.LEFT => backend_calls new = [Move_left]
      | Key.ESC => backend_calls new = []
      | Key.CONTROL_D => backend_calls new = [Print_grid]
      | Key.NONE | Key.OTHER _ | Key.CONTROL_X =>
          backend_calls new = [] \/ backend_calls new = [Move_down]
      end) /\
  (forall rest,
      run_loop (i :: rest) s =
      if Key.eqb (in_key i) Key.CONTROL_X then Ok Exited s
      else bind (loop_body i) (fun _ => run_loop rest) s) /\
  (Key.eqb (in_key i) Key.CONTROL_X = true <-> in_key i = Key.CONTROL_X) /\
  (forall inputs s',
      run_loop inputs s = Ok Exited s' ->
      In Key.CONTROL_X (map in_key inputs)).
Proof.
  split; [| split; [| split; [| split]]].
  - destruct (in_key i); reflexivity.
  - assert (H : exists ms,
        issues ms s (final (loop_body i s)) /\
        (List.length ms <= 1)%nat /\
        match in_key i with
        | Key.ENTER => ms = [Kick_off]
        | Key.DOWN => ms = [Move_down]
        | Key.SPACE => ms = [Fall_down]
        | Key.UP => ms = [Rotate]
        | Key.RIGHT => ms = [Move_right]
        | Key.LEFT => ms = [Move_left]
        | Key.ESC => ms = []
        | Key.CONTROL_D => ms = [Print_grid]
        | Key.NONE | Key.OTHER _ | Key.CONTROL_X =>
            ms = [] \/ ms = [Move_down]
        end).
    { pose proof (loop_body_issues i) as L.
      destruct i as [key g]; cbn [in_key in_getch] in *.
      destruct key; cbn [dict_get key_funcs Key.eqb] in L;
        try (destruct (issues_idle_fall s) as [H | H];
             [exists [] | exists [Move_down]];
             (split; [apply L, H | split; [cbn; lia | tauto]]));
        try (eexists; split;
             [apply L, issues_backend_method | split; [cbn; lia | reflexivity]]).
      - destruct (new_game_fields s) as [s' [E [_ [_ [_ [_ Hc]]]]]].
        exists [Kick_off]. split; [| split; [cbn; lia | reflexivity]].
        apply L. rewrite E. exact Hc.
      - exists []. split; [| split; [cbn; lia | reflexivity]].
        apply L. apply issues_refl.
      - destruct (issues_call_backend _ Print_grid print_grid s)
          as [r [s' [E H]]].
        exists [Print_grid]. split; [| split; [cbn; lia | reflexivity]].
        apply L. rewrite E. exact H. }
    destruct H as [ms [[new [Hc Hq]] [Hlen Hkey]]].
    exists new. rewrite Hq. split; [exact Hc |]. split; [exact Hlen |].
    exact Hkey.
  - intro rest. cbn [run_loop].
    destruct (Key.eqb (in_key i) Key.CONTROL_X); reflexivity.
  - destruct (in_key i); cbn; split; intro H; try discriminate; reflexivity.
  - intros inputs s'. apply run_loop_exit.
Qed.

(** A whole turn on Enter: when [kick_off] reports no landing, the turn
    ends with the score at 10. (A [kick_off] that reported a landing would
    have [_act_response] score it on top.) *)
Lemma new_game_turn_score g (s : Termtris) :
  match fst (kick_off (backend s)) with
  | Some a => res_elim_rows a = None
  | None => True
  end ->
  exists s', loop_body (mkInput Key.ENTER g) s = Ok tt s' /\ score s' = 10.
Proof.
  intro H. destruct (new_game_fields s) as [s1 [E [Hs _]]].
  unfold loop_body, bind. cbn [in_key in_getch dict_get key_funcs Key.eqb].
  rewrite E. destruct (fst (kick_off (backend s))) as [a |]; cbn [of_backend truthy].
  - rewrite H, act_response_moved. eexists. split; [reflexivity | exact Hs].
  - exists s1. split; [reflexivity | exact Hs].
Qed.

(** ** Pause *)

(** C7: the pause handler issues no call and leaves the whole state as it
    was; when [getch] hands back the key that ends the pause (a true
    value), the handler's result is false and the turn does nothing. *)
Theorem pause_is_driver_only (getch_result : bool) (s : Termtris)
  (Hkey : getch_result = true) :
  dict_get (key_funcs getch_result) Key.ESC _idle_fall = pause getch_result /\
  (forall g, pause g s = Ok (RBool (negb g)) s) /\
  (exists res, pause getch_result s = Ok res s /\ truthy res = false) /\
  loop_body (mkInput Key.ESC getch_result) s = Ok tt s.
Proof.
  subst getch_result. split; [reflexivity |]. split; [reflexivity |].
  split; [| reflexivity]. eexists. split; reflexivity.
Qed.

(** ** Entry point *)

Lemma grows_refl (s : Termtris) : grows s s.
Proof. exists []. now rewrite app_nil_r. Qed.

Lemma grows_trans (s1 s2 s3 : Termtris) :
  grows s1 s2 -> grows s2 s3 -> grows s1 s3.
Proof.
  intros [n1 H1] [n2 H2]. exists (n1 ++ n2). now rewrite H2, H1, app_assoc.
Qed.

Lemma grows_fields (s s' : Termtris) :
  calls s' = calls s -> highest s <= highest s' -> grows s s'.
Proof. intros H _. exists []. now rewrite app_nil_r. Qed.

Lemma grows_panel (e : @Event Tetro) (s : Termtris) :
  backend_calls [e] = [] -> grows s (add_call e s).
Proof. intros _. now exists [e]. Qed.

Lemma grows_backend m b (s : Termtris) :
  grows s (set_backend b (add_call (BackendCall m) s)).
Proof. now exists [BackendCall m]. Qed.

Lemma finally_calls A (o : @Outcome Tetro B A) :
  calls (final (finally o)) =
  calls (final o) ++
  [SetParams None None; ResetColor; CursorShowCursor; CursorRestoreScreen].
Proof. destruct o; cbn; now rewrite <- !app_assoc. Qed.

(** C2: with [width < 12] or [height < 20], [main] raises the ValueError
    at once, before any call is issued and any object is built; with
    [width >= 12] and [height >= 20] it does not raise it: it either
    rejects the screen or builds the backend with these dimensions and
    runs. *)
Theorem main_dimension_check py_int argv term_size inputs width height
  (Hargs : parse_args py_int argv = inr (width, height)) :
  (width < 12 \/ height < 20 ->
   main py_int argv term_size inputs = Failed (ValueError dims_msg) /\
   main_calls (main py_int argv term_size inputs) = []) /\
  (12 <= width /\ 20 <= height ->
   main py_int argv term_size inputs <> Failed (ValueError dims_msg) /\
   (main py_int argv term_size inputs = Failed (EnvironmentError screen_msg) \/
    exists o, main py_int argv term_size inputs = Ran o /\
              In (NewBackend width height) (calls (final o)))).
Proof.
  unfold main. rewrite Hargs. split.
  - intro H.
    assert (E : (width <? 12) || (height <? 20) = true).
    { apply orb_true_iff. rewrite !Z.ltb_lt. exact H. }
    rewrite E. split; reflexivity.
  - intros [Hw Hh].
    assert (E : (width <? 12) || (height <? 20) = false).
    { apply orb_false_iff. rewrite !Z.ltb_ge. now split. }
    rewrite E. destruct term_size as [scr_width scr_height].
    match goal with
    | |- context [if ?c then _ else _] => destruct c
    end.
    + split; [discriminate | now left].
    + split; [discriminate | right]. eexists. split; [reflexivity |].
      rewrite finally_calls. apply in_or_app. left.
      match goal with
      | |- In _ (calls (final (run inputs ?s0))) =>
          destruct (keeps_run (@grows Tetro B) grows_refl grows_trans grows_fields
                              grows_panel grows_backend inputs s0)
            as [new Hc]
      end.
      rewrite Hc. apply in_or_app. left. cbn [calls __init__].
      apply in_or_app. right. cbn. tauto.
Qed.

(** ** Outside the hypotheses above *)

(** A cleared-rows list longer than the score table: the piece is merged
    and the rows removed, then the table lookup raises. *)
Lemma act_response_five_rows tetro row col (s : Termtris) r1 r2 r3 r4 r5 :
  _act_response tetro row col (Some [r1; r2; r3; r4; r5]) s =
  Raise IndexError
        (add_call (ActRemoveRows [r1; r2; r3; r4; r5])
           (add_call (ActBlinkRows [r1; r2; r3; r4; r5] 3 (1 # 10)%Q)
              (add_call ActMergeTetro s))).
Proof. reflexivity. Qed.

(** A pause whose [getch] hands back a false value: the handler returns
    [True], and subscripting it raises. *)
Lemma pause_false_getch (s : Termtris) :
  loop_body (mkInput Key.ESC false) s = Raise TypeError s.
Proof. reflexivity. Qed.

(** Idle before any speed was assigned. *)
Lemma idle_fall_unassigned (s : Termtris) :
  speed s = None -> _idle_fall s = Raise AttributeError s.
Proof. intro H. unfold _idle_fall, bind, get. now rewrite H. Qed.

End Facts.

(** * Invariants of a running game *)

Section Invariants.

Context {Tetro B : Type} {backend_ops : @Backend Tetro B}.

Local Abbreviation Termtris := (@Termtris Tetro B).
Local Abbreviation M := (@M Tetro B).

Lemma loop_body_respond (i : Input) :
  loop_body i =
  bind (dict_get (key_funcs (in_getch i)) (in_key i) _idle_fall) respond.
Proof. reflexivity. Qed.

Lemma inv_kept_bind (I : Termtris -> Prop) A C (m : M A) (k : A -> M C) :
  inv_kept I m -> (forall a, inv_kept I (k a)) -> inv_kept I (bind m k).
Proof.
  intros Hm Hk s Hs. unfold bind. specialize (Hm s Hs).
  destruct (m s) as [a s' | e s']; cbn [final] in *.
  - now apply Hk.
  - exact Hm.
Qed.

(** A landing, with the state before the score update written out. *)
Lemma act_response_landing_eq tetro row col rows (s : Termtris) :
  _act_response tetro row col (Some rows) s =
  bind (_update_score (List.length rows))
       (fun _ => emit (ActRefreshTetro tetro row col))
       (add_calls (landed_calls rows) s).
Proof. destruct rows; reflexivity. Qed.

(** ** Properties kept step by step *)

Section Stepwise.
Variable I : Termtris -> Prop.
Hypothesis I_panel : forall (e : @Event Tetro) s,
  backend_calls [e] = [] -> I s -> I (add_call e s).
Hypothesis I_call : forall m b s,
  I s -> I (set_backend b (add_call (BackendCall m) s)).
Hypothesis I_tick : forall s n,
  I s -> speed s = Some n -> n <> 0 ->
  I (set_tick ((tick s + 1) mod n) s).
Hypothesis I_update : forall k pts s,
  nth_error _SCORE_TABLE k = Some pts -> I s ->
  I (final (_renew_game_stat (scored pts s))).

Lemma inv_update_score k : inv_kept I (_update_score k).
Proof.
  intros s Hs. destruct (nth_error _SCORE_TABLE k) as [pts |] eqn:E.
  - rewrite (update_score_eq _ _ _ E). now apply (I_update k).
  - now rewrite (update_score_out_of_range _ _ E).
Qed.

Lemma inv_landed_calls rows s : I s -> I (add_calls (landed_calls rows) s).
Proof.
  intro Hs. destruct rows; cbn; repeat apply I_panel; auto.
Qed.

Lemma inv_act_response tetro row col elim :
  inv_kept I (_act_response tetro row col elim).
Proof.
  intros s Hs. destruct elim as [rows |].
  - rewrite act_response_landing_eq.
    apply (inv_kept_bind I).
    + apply inv_update_score.
    + intros _ s' Hs'. now apply I_panel.
    + now apply inv_landed_calls.
  - rewrite act_response_moved. now apply I_panel.
Qed.

Lemma inv_respond res : inv_kept I (respond res).
Proof.
  destruct res as [| [|] | a]; cbn [respond truthy];
    try (intros s Hs; exact Hs).
  apply inv_act_response.
Qed.

Lemma inv_call_backend A m (f : B -> A * B) : inv_kept I (call_backend m f).
Proof.
  intros s Hs. unfold call_backend, bind, get, emit, modify, ret.
  cbn [backend add_call]. destruct (f (backend s)) as [r b'].
  now apply I_call.
Qed.

Lemma inv_backend_method m f : inv_kept I (backend_method m f).
Proof.
  unfold backend_method. apply inv_kept_bind.
  - apply inv_call_backend.
  - intros r s Hs. exact Hs.
Qed.

Lemma inv_idle_fall : inv_kept I _idle_fall.
Proof.
  intros s Hs. destruct (speed s) as [n |] eqn:En.
  - destruct (Z.eq_dec n 0) as [-> | Hn].
    + unfold _idle_fall, bind, get. now rewrite En.
    + rewrite (idle_fall_eq s n En Hn). cbv zeta.
      destruct ((tick s + 1) mod n =? 0); cbn [final].
      * apply I_call. now apply I_tick.
      * now apply I_tick.
  - rewrite (idle_fall_unassigned s En). exact Hs.
Qed.

(** Every handler but the one of Enter. *)
Lemma inv_handler g key :
  key <> Key.ENTER -> inv_kept I (dict_get (key_funcs g) key _idle_fall).
Proof.
  intro Hk. destruct key; cbn [dict_get key_funcs Key.eqb];
    try apply inv_idle_fall; try apply inv_backend_method;
    try apply inv_call_backend; try contradiction.
  intros s Hs. exact Hs.
Qed.

Lemma inv_loop_body i :
  in_key i <> Key.ENTER -> inv_kept I (loop_body i).
Proof.
  intro Hk. rewrite loop_body_respond. apply inv_kept_bind.
  - now apply inv_handler.
  - apply inv_respond.
Qed.

(** With Enter as well, when a new game keeps the property. *)
Hypothesis I_new_game : inv_kept I _new_game.

Lemma inv_loop_body_any i : inv_kept I (loop_body i).
Proof.
  destruct (in_key i) eqn:E; try (apply inv_loop_body; rewrite E; discriminate).
  rewrite loop_body_respond, E. apply inv_kept_bind.
  - exact I_new_game.
  - apply inv_respond.
Qed.

Lemma inv_run_loop inputs : inv_kept I (run_loop inputs).
Proof.
  induction inputs as [| i rest IH]; cbn [run_loop].
  - intros s Hs. exact Hs.
  - destruct (Key.eqb (in_key i) Key.CONTROL_X).
    + intros s Hs. exact Hs.
    + apply inv_kept_bind; [apply inv_loop_body_any | intros _; exact IH].
Qed.

End Stepwise.

(** ** Speed and score *)

Lemma speed_of_cases sc :
  speed_of sc =
  if sc <? 1000 then 8 else if sc <? 2000 then 7 else
  if sc <? 4000 then 6 else if sc <? 8000 then 5 else
  if sc <? 16000 then 4 else if sc <? 32000 then 3 else
  if sc <? 64000 then 2 else 1.
Proof.
  unfold speed_of, _LEVEL_TABLE. cbn [first_above List.length].
  repeat match goal with
         | |- context [sc <? ?b] => destruct (Z.ltb_spec sc b); try lia
         end; reflexivity.
Qed.

Lemma renew_game_stat_speed (s : Termtris) :
  score s < 80000000 ->
  exists s', _renew_game_stat s = Ok tt s' /\
             speed s' = Some (speed_of (score s)) /\
             score s' = score s /\ highest s' = highest s /\
             tick s' = tick s.
Proof.
  intro H. destruct (first_above_table (score s)) as [Hlt _].
  destruct (Hlt H) as [i [Hi _]].
  rewrite renew_game_stat_eq. unfold speed_of. rewrite Hi, show_level_eq.
  eexists. split; [reflexivity |]. cbn. repeat split.
Qed.

Lemma score_table_points k pts :
  nth_error _SCORE_TABLE k = Some pts -> 10 <= pts <= 800.
Proof.
  do 5 (destruct k as [| k]; [cbn; intros [= <-]; lia |]).
  destruct k; discriminate.
Qed.

Lemma consistent_update k pts (s : Termtris) :
  nth_error _SCORE_TABLE k = Some pts -> consistent s ->
  consistent (final (_renew_game_stat (scored pts s))).
Proof.
  intros Hk [Hsc [Hsp Ht]]. apply score_table_points in Hk.
  destruct (scored_fields pts s) as [Fs [Fh [_ [Fp [Ft _]]]]].
  destruct (Z.lt_ge_cases (score (scored pts s)) 80000000) as [Hlt | Hge].
  - destruct (renew_game_stat_speed _ Hlt) as [s' [E [Hp' [Hs' [Hh' Ht']]]]].
    rewrite E. cbn [final]. unfold consistent.
    rewrite Hp', Hs', Hh', Ht', Fs, Fh, Ft. repeat split; try lia.
  - destruct (first_above_table (score (scored pts s))) as [_ Hnone].
    rewrite renew_game_stat_eq, (Hnone Hge). cbn [final]. unfold consistent.
    rewrite Fs, Fh, Fp, Ft, Hsp. rewrite Fs in Hge.
    repeat split; try lia. f_equal. rewrite !speed_of_cases.
    repeat match goal with
           | |- context [?a <? ?b] => destruct (Z.ltb_spec a b); try lia
           end.
Qed.

(** A new game, written out: the calls in order, and every counter. *)
Lemma new_game_closed (s : Termtris) :
  let r := fst (kick_off (backend s)) in
  let b' := snd (kick_off (backend s)) in
  exists s',
    _new_game s = Ok (of_backend r) s' /\
    score s' = 10 /\ highest s' = Z.max (highest s) 10 /\
    speed s' = Some 8 /\ tick s' = tick s /\
    stat_sect_row s' = stat_sect_row s /\ backend s' = b' /\
    calls s' =
      calls s ++
      [ActClear; BackendCall Kick_off;
       MsgPutText (stat_text 0 10 (Z.max (highest s) 10))
                  (Some (stat_sect_row s + 1)) None;
       MsgRefreshTetro (next_tetro b')].
Proof.
  cbv zeta. unfold _new_game, call_backend, emit, modify, get, ret, bind.
  cbn [backend add_call].
  destruct (kick_off (backend s)) as [r b'] eqn:E. cbn [fst snd].
  rewrite (update_score_eq 0 10) by reflexivity.
  rewrite renew_game_stat_eq.
  match goal with
  | |- context [scored 10 ?s0] =>
      destruct (scored_fields 10 s0) as [Fs [Fh [Fb [_ [Ft [Fr Fc]]]]]];
      cbn [score highest backend tick stat_sect_row calls
           set_score set_backend add_call] in Fs, Fh, Fb, Ft, Fr, Fc
  end.
  rewrite Fs. change (first_above (0 + 10) _LEVEL_TABLE) with (Some O).
  cbv iota. cbn [Z.of_nat]. rewrite show_level_eq. eexists. split; [reflexivity |].
  cbn [score highest speed tick stat_sect_row backend calls
       set_speed add_call].
  rewrite Fs, Fh, Fb, Ft, Fr, Fc.
  repeat split; try lia.
  rewrite <- !app_assoc. reflexivity.
Qed.

Lemma consistent_new_game : inv_kept (@consistent Tetro B) _new_game.
Proof.
  intros s [Hsc [Hsp Ht]].
  destruct (new_game_closed s) as [s' [E [Hs' [Hh' [Hp' [Ht' _]]]]]].
  rewrite E. cbn [final]. unfold consistent.
  rewrite Hs', Hh', Hp', Ht'. repeat split; try lia.
Qed.

Lemma consistent_panel (e : @Event Tetro) (s : Termtris) :
  backend_calls [e] = [] -> consistent s -> consistent (add_call e s).
Proof. intros _ H. exact H. Qed.

Lemma consistent_call m b (s : Termtris) :
  consistent s -> consistent (set_backend b (add_call (BackendCall m) s)).
Proof. intro H. exact H. Qed.

Lemma consistent_tick (s : Termtris) n :
  consistent s -> speed s = Some n -> n <> 0 ->
  consistent (set_tick ((tick s + 1) mod n) s).
Proof.
  intros [Hsc [Hsp Ht]] Hn Hn0. unfold consistent.
  cbn [score highest speed tick set_tick]. repeat split; try tauto.
  - rewrite Hsp in Hn. injection Hn as <-.
    pose proof (speed_of_cases (score s)) as Hc.
    assert (0 < speed_of (score s)).
    { rewrite Hc. repeat match goal with
             | |- context [?a <? ?b] => destruct (a <? b)
             end; lia. }
    apply Z.mod_pos_bound. lia.
  - rewrite Hsp in Hn. injection Hn as <-.
    pose proof (speed_of_cases (score s)) as Hc.
    assert (0 < speed_of (score s) <= 8).
    { rewrite Hc. repeat match goal with
             | |- context [?a <? ?b] => destruct (a <? b)
             end; lia. }
    pose proof (Z.mod_pos_bound (tick s + 1) (speed_of (score s))). lia.
Qed.

Lemma add_calls_fields (evs : list (@Event Tetro)) : forall s : Termtris,
  score (add_calls evs s) = score s /\
  highest (add_calls evs s) = highest s /\
  speed (add_calls evs s) = speed s /\
  tick (add_calls evs s) = tick s /\
  backend (add_calls evs s) = backend s /\
  stat_sect_row (add_calls evs s) = stat_sect_row s /\
  calls (add_calls evs s) = calls s ++ evs.
Proof.
  induction evs as [| e evs IH]; intro s; cbn [add_calls fold_left].
  - rewrite app_nil_r. repeat split.
  - destruct (IH (add_call e s)) as [H1 [H2 [H3 [H4 [H5 [H6 H7]]]]]].
    unfold add_calls in *. rewrite H1, H2, H3, H4, H5, H6, H7.
    cbn [score highest speed tick backend stat_sect_row calls add_call].
    rewrite <- app_assoc. repeat split.
Qed.

Lemma init_msg_panel_eq (s : Termtris) :
  _init_msg_panel s =
  _renew_game_stat (add_calls (init_calls (stat_sect_row s)) s).
Proof. reflexivity. Qed.

Lemma run_eq inputs (s : Termtris) :
  run inputs s =
  bind _init_msg_panel (fun _ => run_loop inputs)
       (add_calls [ActShow; MsgShow] s).
Proof. reflexivity. Qed.

(** What [run] has done when it reads its first key. *)
Lemma run_fresh before o_row o_col width height inputs :
  exists s1 : Termtris,
    run inputs (__init__ before o_row o_col width height) =
      run_loop inputs s1 /\
    score s1 = 0 /\ highest s1 = 0 /\ speed s1 = Some 8 /\ tick s1 = 0 /\
    backend s1 = new_backend width height.
Proof.
  rewrite run_eq. unfold bind. rewrite init_msg_panel_eq.
  match goal with
  | |- context [_renew_game_stat ?s0] =>
      assert (F : score s0 = 0 /\ highest s0 = 0 /\ tick s0 = 0 /\
                  backend s0 = new_backend width height);
      [| destruct F as [F1 [F2 [F3 F4]]];
         destruct (renew_game_stat_speed s0 ltac:(rewrite F1; lia))
           as [s1 [E [Hp [Hs [Hh Ht]]]]];
         destruct (renew_game_stat_fields s0) as [s2 [E2 [_ [_ [Hb _]]]]] ]
  end.
  { match goal with
    | |- context [add_calls ?e1 (add_calls ?e2 ?s0)] =>
        destruct (add_calls_fields e1 (add_calls e2 s0))
          as [A1 [A2 [_ [A4 [A5 _]]]]];
        destruct (add_calls_fields e2 s0) as [B1 [B2 [_ [B4 [B5 _]]]]]
    end.
    rewrite A1, A2, A4, A5, B1, B2, B4, B5. repeat split. }
  rewrite E in E2. injection E2 as <-.
  rewrite E. exists s1. split; [reflexivity |].
  rewrite Hp, Hs, Hh, Ht, Hb, F1, F2, F3, F4. repeat split.
Qed.

(** ** The counters stay consistent *)

Lemma consistent_fresh (s : Termtris) :
  score s = 0 -> highest s = 0 -> speed s = Some 8 -> tick s = 0 ->
  consistent s.
Proof.
  intros H1 H2 H3 H4. unfold consistent. rewrite H1, H2, H3, H4.
  repeat split; lia.
Qed.

Lemma consistent_loop_body i : inv_kept (@consistent Tetro B) (loop_body i).
Proof.
  apply inv_loop_body_any.
  - exact consistent_panel.
  - exact consistent_call.
  - exact consistent_tick.
  - exact consistent_update.
  - exact consistent_new_game.
Qed.

Lemma consistent_run_loop inputs :
  inv_kept (@consistent Tetro B) (run_loop inputs).
Proof.
  apply inv_run_loop.
  - exact consistent_panel.
  - exact consistent_call.
  - exact consistent_tick.
  - exact consistent_update.
  - exact consistent_new_game.
Qed.

(** X1: from one turn to the next of a game, and at the end of every run of
    a freshly built object, returned or raised: [0 <= score <= highest],
    the speed is the one the level table gives the score (1 beyond the last
    threshold), and [0 <= tick < 8]. *)
Theorem run_keeps_consistent :
  (forall i (s : Termtris),
      consistent s -> consistent (final (loop_body i s))) /\
  (forall before o_row o_col width height inputs,
      consistent (final (run inputs
                             (__init__ before o_row o_col width height)))).
Proof.
  split.
  - exact consistent_loop_body.
  - intros before o_row o_col width height inputs.
    destruct (run_fresh before o_row o_col width height inputs)
      as [s1 [E [H1 [H2 [H3 [H4 _]]]]]].
    rewrite E. apply consistent_run_loop. now apply consistent_fresh.
Qed.

(** ** Which exceptions a run can raise *)

Lemma call_backend_eq A m (f : B -> A * B) (s : Termtris) :
  call_backend m f s =
  Ok (fst (f (backend s)))
     (set_backend (snd (f (backend s))) (add_call (BackendCall m) s)).
Proof.
  unfold call_backend, bind, get, emit, modify, ret. cbn [backend add_call].
  now destruct (f (backend s)).
Qed.

Lemma backend_method_eq m f (s : Termtris) :
  backend_method m f s =
  Ok (of_backend (fst (f (backend s))))
     (set_backend (snd (f (backend s))) (add_call (BackendCall m) s)).
Proof. unfold backend_method, bind. now rewrite call_backend_eq. Qed.

Lemma consistent_speed (s : Termtris) :
  consistent s -> exists n, speed s = Some n /\ 1 <= n <= 8.
Proof.
  intros [_ [H _]]. exists (speed_of (score s)). split; [exact H |].
  rewrite speed_of_cases.
  repeat match goal with
         | |- context [?a <? ?b] => destruct (a <? b)
         end; lia.
Qed.

(** In a consistent state every handler returns. *)
Lemma handler_returns g key (s : Termtris) :
  consistent s ->
  exists res s1, dict_get (key_funcs g) key _idle_fall s = Ok res s1.
Proof.
  intro Hs.
  assert (Hidle : exists res s1, _idle_fall s = Ok res s1).
  { destruct (consistent_speed s Hs) as [n [Hn Hr]].
    rewrite (idle_fall_eq s n Hn) by lia. cbv zeta.
    destruct ((tick s + 1) mod n =? 0); eauto. }
  destruct key; cbn [dict_get key_funcs Key.eqb]; try exact Hidle;
    try (rewrite backend_method_eq; eauto).
  - destruct (new_game_closed s) as [s' [E _]]. eauto.
  - unfold pause, ret. eauto.
  - rewrite call_backend_eq. eauto.
Qed.

Lemma act_response_outcome tetro row col elim (s : Termtris) :
  (exists s', _act_response tetro row col elim s = Ok tt s' /\
              backend s' = backend s) \/
  (exists s' rows, _act_response tetro row col elim s = Raise IndexError s' /\
                   elim = Some rows /\ (4 < List.length rows)%nat).
Proof.
  destruct elim as [rows |].
  - destruct (nth_error _SCORE_TABLE (List.length rows)) as [pts |] eqn:E.
    + left. destruct (act_response_landed tetro row col rows pts s E)
        as [s' [shown [E' [_ [_ [Hb _]]]]]]. eauto.
    + right. destruct (act_response_too_many tetro row col rows s E)
        as [s1 [E' _]].
      exists s1, rows. split; [exact E' |]. split; [reflexivity |].
      apply nth_error_None in E. cbn in E. lia.
  - left. rewrite act_response_moved. eauto.
Qed.

Lemma respond_outcome res (s : Termtris) :
  (exists s', respond res s = Ok tt s' /\ backend s' = backend s) \/
  (exists s', respond res s = Raise TypeError s' /\ res = RBool true) \/
  (exists s' a rows, respond res s = Raise IndexError s' /\ res = RAct a /\
                     res_elim_rows a = Some rows /\
                     (4 < List.length rows)%nat).
Proof.
  destruct res as [| [|] | a]; cbn [respond truthy].
  - left. unfold ret. eauto.
  - right. left. unfold raise. eauto.
  - left. unfold ret. eauto.
  - destruct (act_response_outcome (res_tetro a) (res_row a) (res_col a)
                                   (res_elim_rows a) s)
      as [[s' H] | [s' [rows [E [Hr Hl]]]]].
    + left. eauto.
    + right. right. exists s', a, rows. auto.
Qed.

Lemma loop_body_raises i (s : Termtris) :
  consistent s ->
  match loop_body i s with
  | Ok _ _ => True
  | Raise e _ => e = IndexError \/ e = TypeError
  end.
Proof.
  intro Hs. rewrite loop_body_respond. unfold bind.
  destruct (handler_returns (in_getch i) (in_key i) s Hs) as [res [s1 E]].
  rewrite E.
  destruct (respond_outcome res s1)
    as [[s' [E' _]] | [[s' [E' _]] | [s' [a [rows [E' _]]]]]];
    rewrite E'; auto.
Qed.

Lemma run_loop_raises inputs : forall s : Termtris,
  consistent s ->
  match run_loop inputs s with
  | Ok _ _ => True
  | Raise e _ => e = IndexError \/ e = TypeError
  end.
Proof.
  induction inputs as [| i rest IH]; intros s Hs; cbn [run_loop].
  - exact I.
  - destruct (Key.eqb (in_key i) Key.CONTROL_X); [exact I |].
    unfold bind. pose proof (loop_body_raises i s Hs) as H.
    pose proof (consistent_loop_body i s Hs) as Hc.
    destruct (loop_body i s) as [[] s1 | e s1]; cbn [final] in Hc.
    + now apply IH.
    + exact H.
Qed.

(** X2: a run of a freshly built object never raises AttributeError (the
    speed is assigned before the first key) nor ZeroDivisionError (it is
    never 0): whatever the keys and the backend, the only exceptions that
    leave [run] are IndexError and TypeError. *)
Theorem run_raises_only before o_row o_col width height inputs :
  match run inputs (__init__ before o_row o_col width height) with
  | Ok _ _ => True
  | Raise e _ => e = IndexError \/ e = TypeError
  end.
Proof.
  destruct (run_fresh before o_row o_col width height inputs)
    as [s1 [E [H1 [H2 [H3 [H4 _]]]]]].
  rewrite E. apply run_loop_raises. now apply consistent_fresh.
Qed.

(** ** A backend that keeps to the score table *)

Lemma respond_ok res (s : Termtris) :
  res_ok res ->
  exists s', respond res s = Ok tt s' /\ backend s' = backend s.
Proof.
  intro Hok.
  destruct (respond_outcome res s)
    as [H | [[s' [_ ->]] | [s' [a [rows [_ [-> [Hr Hl]]]]]]]].
  - exact H.
  - destruct Hok as [Hf | [a [Ha _]]]; discriminate.
  - destruct Hok as [Hf | [a' [[= <-] Hrows]]]; [discriminate |].
    cbn [rows_ok] in Hrows. rewrite Hr in Hrows. lia.
Qed.

Lemma rows_ok_res_ok (r : option (@ActResult Tetro)) :
  rows_ok r -> res_ok (of_backend r).
Proof.
  intro H. destruct r as [a |]; cbn [of_backend].
  - right. eauto.
  - now left.
Qed.

(** One turn with such a backend and a pause that ends on a key. *)
Lemma loop_body_ok (Binv : B -> Prop) i (s : Termtris) :
  well_behaved Binv -> in_getch i = true ->
  consistent s -> Binv (backend s) ->
  exists s', loop_body i s = Ok tt s' /\ consistent s' /\ Binv (backend s').
Proof.
  intros Hwb Hg Hs Hb.
  destruct (Hwb _ Hb) as [Hops [Hpg Hpgb]].
  assert (Hh : exists res s1,
    dict_get (key_funcs (in_getch i)) (in_key i) _idle_fall s = Ok res s1 /\
    res_ok res /\ Binv (backend s1)).
  { assert (Hm : forall m f,
        In f [kick_off; move_down; fall_down; rotate; move_right; move_left] ->
        exists res s1, backend_method m f s = Ok res s1 /\
                       res_ok res /\ Binv (backend s1)).
    { intros m f Hin. rewrite backend_method_eq.
      destruct (Hops f Hin) as [Hr Hbi]. do 2 eexists.
      split; [reflexivity |]. split; [now apply rows_ok_res_ok | exact Hbi]. }
    assert (Hidle : exists res s1, _idle_fall s = Ok res s1 /\
                                   res_ok res /\ Binv (backend s1)).
    { destruct (consistent_speed s Hs) as [n [Hn Hr]].
      rewrite (idle_fall_eq s n Hn) by lia. cbv zeta.
      destruct (Hops move_down ltac:(cbn; tauto)) as [Hrows Hbi].
      destruct ((tick s + 1) mod n =? 0); do 2 eexists;
        (split; [reflexivity |]).
      - split; [now apply rows_ok_res_ok | exact Hbi].
      - split; [now left | exact Hb]. }
    destruct (in_key i); cbn [dict_get key_funcs Key.eqb]; try exact Hidle;
      try (apply Hm; cbn; tauto).
    - destruct (new_game_closed s) as [s' [E [_ [_ [_ [_ [_ [Hb' _]]]]]]]].
      destruct (Hops kick_off ltac:(cbn; tauto)) as [Hrows Hbi].
      exists (of_backend (fst (kick_off (backend s)))), s'.
      split; [exact E |]. split; [now apply rows_ok_res_ok |].
      rewrite Hb'. exact Hbi.
    - rewrite Hg. unfold pause, ret. do 2 eexists.
      split; [reflexivity |]. split; [now left | exact Hb].
    - rewrite call_backend_eq. do 2 eexists. split; [reflexivity |].
      split; [| exact Hpgb]. left. now rewrite Hpg. }
  destruct Hh as [res [s1 [E [Hok Hb1]]]].
  destruct (respond_ok res s1 Hok) as [s' [E' Hb']].
  pose proof (consistent_loop_body i s Hs) as Hc.
  rewrite loop_body_respond in Hc |- *. unfold bind in Hc |- *.
  rewrite E in Hc |- *. rewrite E' in Hc |- *. cbn [final] in Hc.
  exists s'. split; [reflexivity |]. split; [exact Hc |].
  rewrite Hb'. exact Hb1.
Qed.

Lemma run_loop_ok (Binv : B -> Prop) inputs : forall s : Termtris,
  well_behaved Binv -> Forall (fun i => in_getch i = true) inputs ->
  consistent s -> Binv (backend s) ->
  exists e s', run_loop inputs s = Ok e s'.
Proof.
  induction inputs as [| i rest IH]; intros s Hwb Hg Hs Hb; cbn [run_loop].
  - unfold ret. eauto.
  - destruct (Key.eqb (in_key i) Key.CONTROL_X); [unfold ret; eauto |].
    inversion Hg as [| ? ? Hgi Hgrest]; subst.
    destruct (loop_body_ok Binv i s Hwb Hgi Hs Hb) as [s1 [E [Hs1 Hb1]]].
    unfold bind. rewrite E. now apply IH.
Qed.

(** X3: with a backend whose answers carry at most four cleared rows and
    whose [print_grid] returns [None], and pauses that end on a key, a run
    of a freshly built object never raises: it reads all its keys or
    leaves through the quit key. *)
Theorem run_never_raises (Binv : B -> Prop)
        before o_row o_col width height inputs
  (Hwb : well_behaved Binv)
  (Hb : Binv (new_backend width height))
  (Hg : Forall (fun i => in_getch i = true) inputs) :
  exists e s',
    run inputs (__init__ before o_row o_col width height) = Ok e s'.
Proof.
  destruct (run_fresh before o_row o_col width height inputs)
    as [s1 [E [H1 [H2 [H3 [H4 H5]]]]]].
  rewrite E. apply (run_loop_ok Binv); auto.
  - now apply consistent_fresh.
  - now rewrite H5.
Qed.

(** ** The score only drops on Enter *)

(** X4: a turn on any key but Enter never lowers the score. *)
Theorem score_only_drops_on_enter i (s : Termtris)
  (Hkey : in_key i <> Key.ENTER) :
  score s <= score (final (loop_body i s)).
Proof.
  apply (inv_loop_body (fun s' => score s <= score s')); try exact Hkey;
    try lia; clear i Hkey.
  - intros e s0 _ H. exact H.
  - intros m b s0 H. exact H.
  - intros s0 n H _ _. exact H.
  - intros k pts s0 Hk H. apply score_table_points in Hk.
    destruct (renew_game_stat_fields (scored pts s0)) as [s' [E [Hs' _]]].
    rewrite E. cbn [final]. rewrite Hs'.
    destruct (scored_fields pts s0) as [Fs _]. rewrite Fs. lia.
Qed.

(** ** Composition of the loop *)



(** ** Landings, written out *)

(** X6: a landing with more than four cleared rows: the piece is merged,
    the rows are blinked and removed, and then the table lookup raises
    IndexError; the score and the highest score are as before, and the
    falling piece is not redrawn. *)
Theorem landing_beyond_table tetro row col rows (s : Termtris)
  (Hlen : (4 < List.length rows)%nat) :
  exists s',
    _act_response tetro row col (Some rows) s = Raise IndexError s' /\
    calls s' = calls s ++ [ActMergeTetro; ActBlinkRows rows 3 (1 # 10)%Q;
                           ActRemoveRows rows] /\
    score s' = score s /\ highest s' = highest s /\ speed s' = speed s.
Proof.
  assert (Hn : nth_error _SCORE_TABLE (List.length rows) = None).
  { apply nth_error_None. cbn. lia. }
  rewrite act_response_landing_eq. unfold bind.
  rewrite (update_score_out_of_range _ _ Hn).
  destruct (add_calls_fields (landed_calls rows) s)
    as [H1 [H2 [H3 [_ [_ [_ H7]]]]]].
  eexists. split; [reflexivity |]. rewrite H1, H2, H3, H7.
  destruct rows; [cbn in Hlen; lia |]. repeat split.
Qed.

(** X7: a landing with [k <= 4] cleared rows that leaves the score below
    the last threshold: the score grows by entry [k], the highest score is
    the larger of the old one and the new score, the speed is the one of
    the new score, and the calls are, in order: the merge (with blink and
    removal for [k > 0]), the statistics with the new level, the preview
    of the next piece, the falling piece. *)
Theorem landing_postcondition tetro row col rows pts i (s : Termtris)
  (Hpts : nth_error _SCORE_TABLE (List.length rows) = Some pts)
  (Hi : first_above (score s + pts) _LEVEL_TABLE = Some i) :
  exists s',
    _act_response tetro row col (Some rows) s = Ok tt s' /\
    score s' = score s + pts /\
    highest s' = Z.max (highest s) (score s + pts) /\
    speed s' = Some (8 - Z.of_nat i) /\
    tick s' = tick s /\ backend s' = backend s /\
    calls s' =
      calls s ++ landed_calls rows ++
      [MsgPutText (stat_text (Z.of_nat i) (score s + pts)
                             (Z.max (highest s) (score s + pts)))
                  (Some (stat_sect_row s + 1)) None;
       MsgRefreshTetro (next_tetro (backend s));
       ActRefreshTetro tetro row col].
Proof.
  rewrite act_response_landing_eq. unfold bind.
  rewrite (update_score_eq _ pts _ Hpts), renew_game_stat_eq.
  destruct (add_calls_fields (landed_calls rows) s)
    as [H1 [H2 [H3 [H4 [H5 [H6 H7]]]]]].
  destruct (scored_fields pts (add_calls (landed_calls rows) s))
    as [Fs [Fh [Fb [_ [Ft [Fr Fc]]]]]].
  rewrite Fs, H1, Hi, show_level_eq. eexists. split; [reflexivity |].
  cbn [score highest speed tick backend calls set_speed add_call].
  rewrite Fs, Fh, Fb, Ft, Fr, Fc, H1, H2, H4, H5, H6, H7.
  repeat split. rewrite <- !app_assoc. reflexivity.
Qed.

(** X8: a new game, whatever came before: score 10, speed 8, the highest
    score kept (or raised to 10), the tick counter not reset, and exactly
    four calls: clear the active panel, [kick_off], the statistics at level
    1, and the preview of the piece that is next after [kick_off]. *)
Theorem new_game_postcondition (s : Termtris) :
  exists s',
    _new_game s = Ok (of_backend (fst (kick_off (backend s)))) s' /\
    score s' = 10 /\ highest s' = Z.max (highest s) 10 /\
    speed s' = Some 8 /\ tick s' = tick s /\
    backend s' = snd (kick_off (backend s)) /\
    calls s' =
      calls s ++
      [ActClear; BackendCall Kick_off;
       MsgPutText (stat_text 0 10 (Z.max (highest s) 10))
                  (Some (stat_sect_row s + 1)) None;
       MsgRefreshTetro (next_tetro (snd (kick_off (backend s))))].
Proof.
  destruct (new_game_closed s) as [s' [E [H1 [H2 [H3 [H4 [_ [H6 H7]]]]]]]].
  exists s'. repeat split; assumption.
Qed.

(** ** Speed and score, continued *)

Lemma speed_of_mono sc1 sc2 : sc1 <= sc2 -> speed_of sc2 <= speed_of sc1.
Proof.
  intro H. rewrite !speed_of_cases.
  repeat match goal with
         | |- context [?a <? ?b] => destruct (Z.ltb_spec a b); try lia
         end.
Qed.

(** X9: the speed [_renew_game_stat] assigns depends on the score alone,
    and a higher score never gets a larger speed (a slower fall). *)
Theorem renew_speed_monotone (s1 s2 : Termtris)
  (Hle : score s1 <= score s2) (Htop : score s2 < 80000000) :
  exists n1 n2,
    speed (final (_renew_game_stat s1)) = Some n1 /\
    speed (final (_renew_game_stat s2)) = Some n2 /\
    1 <= n2 <= n1 /\ n1 <= 8 /\
    (score s1 = score s2 -> n1 = n2).
Proof.
  destruct (renew_game_stat_speed s1 ltac:(lia)) as [s1' [E1 [H1 _]]].
  destruct (renew_game_stat_speed s2 Htop) as [s2' [E2 [H2 _]]].
  rewrite E1, E2. cbn [final].
  exists (speed_of (score s1)), (speed_of (score s2)).
  split; [exact H1 |]. split; [exact H2 |].
  pose proof (speed_of_mono _ _ Hle) as Hm.
  pose proof (speed_of_cases (score s1)) as C1.
  pose proof (speed_of_cases (score s2)) as C2.
  assert (1 <= speed_of (score s2)).
  { rewrite C2. repeat match goal with
           | |- context [?a <? ?b] => destruct (a <? b)
           end; lia. }
  assert (speed_of (score s1) <= 8).
  { rewrite C1. repeat match goal with
           | |- context [?a <? ?b] => destruct (a <? b)
           end; lia. }
  repeat split; try lia. intros ->. reflexivity.
Qed.

(** ** Gravity over any number of ticks *)

(** X10: at speed [n], [k] consecutive idle calls return, leave score,
    highest score and speed alone, and call [move_down] once for every
    multiple of [n] the counter passes: [(tick + k) / n - tick / n] times.
    In particular they call nothing while the counter stays below [n]. *)
Theorem idle_calls_count k (s : Termtris) n
  (Hs : speed s = Some n) (Hn : 0 < n) :
  exists s',
    idle_calls k s = Ok tt s' /\
    speed s' = Some n /\ score s' = score s /\ highest s' = highest s /\
    tick s' mod n = (tick s + Z.of_nat k) mod n /\
    calls s' =
      calls s ++ repeat (BackendCall Move_down)
                        (Z.to_nat ((tick s + Z.of_nat k) / n - tick s / n)) /\
    (0 <= tick s -> tick s + Z.of_nat k < n -> calls s' = calls s).
Proof.
  destruct (idle_calls_spec k s n Hs Hn) as [s' [E [H1 [H2 [H3 [H4 H5]]]]]].
  exists s'. repeat split; try assumption.
  intros H0 Hlt. rewrite H5.
  rewrite !Z.div_small by lia. cbn. now rewrite app_nil_r.
Qed.

(** ** The entry point, continued *)

Lemma main_valid_dims py_int argv scr_width scr_height inputs width height :
  parse_args py_int argv = inr (width, height) ->
  12 <= width -> 20 <= height ->
  main py_int argv (scr_width, scr_height) inputs =
  let o_row := Z.min ((scr_height - (height + 2)) / 2 + 1) 5 in
  let o_col := (scr_width - (width * 2 + 3) * 2) / 2 + 1 in
  if (o_row <=? 0) || (o_col <=? 0)
  then Failed (EnvironmentError screen_msg)
  else Ran (finally (run inputs
                         (__init__ setup_calls o_row o_col width height))).
Proof.
  intros Hargs Hw Hh. unfold main. rewrite Hargs.
  assert (E : (width <? 12) || (height <? 20) = false).
  { apply orb_false_iff. rewrite !Z.ltb_ge. now split. }
  rewrite E. reflexivity.
Qed.

Lemma init_calls_eq before o_row o_col width height :
  calls (__init__ before o_row o_col width height : Termtris) =
  before ++ [NewActivePanel o_row o_col width height;
             NewMessagePanel o_row (o_col + (width + 1) * 2) width height;
             NewBackend width height].
Proof. reflexivity. Qed.

Lemma run_grows inputs (s : Termtris) :
  exists new, calls (final (run inputs s)) = calls s ++ new.
Proof.
  exact (keeps_run (@grows Tetro B) grows_refl grows_trans grows_fields
                   grows_panel grows_backend inputs s).
Qed.

(** X11: for valid dimensions, [main] rejects the screen exactly when it
    has fewer than [height + 2] lines or fewer than [4 * width + 6]
    columns. Otherwise it builds the panels at a row from 1 to 5 and a
    column from 1 on, such that [height + 2] lines and
    [(width * 2 + 3) * 2] columns from there are within the screen. *)
Theorem main_screen_check py_int argv scr_width scr_height inputs
        width height
  (Hargs : parse_args py_int argv = inr (width, height))
  (Hw : 12 <= width) (Hh : 20 <= height) :
  (scr_height < height + 2 \/ scr_width < 4 * width + 6 ->
   main py_int argv (scr_width, scr_height) inputs =
     Failed (EnvironmentError screen_msg)) /\
  (height + 2 <= scr_height -> 4 * width + 6 <= scr_width ->
   exists o o_row o_col,
     main py_int argv (scr_width, scr_height) inputs = Ran o /\
     1 <= o_row <= 5 /\ 1 <= o_col /\
     o_row - 1 + (height + 2) <= scr_height /\
     o_col - 1 + (width * 2 + 3) * 2 <= scr_width /\
     In (NewActivePanel o_row o_col width height) (calls (final o)) /\
     In (NewMessagePanel o_row (o_col + (width + 1) * 2) width height)
        (calls (final o))).
Proof.
  rewrite (main_valid_dims _ _ _ _ _ _ _ Hargs Hw Hh). cbv zeta.
  set (o_row := Z.min ((scr_height - (height + 2)) / 2 + 1) 5).
  set (o_col := (scr_width - (width * 2 + 3) * 2) / 2 + 1).
  split.
  - intro H.
    assert (E : (o_row <=? 0) || (o_col <=? 0) = true).
    { apply orb_true_iff. rewrite !Z.leb_le. unfold o_row, o_col.
      destruct H as [H | H]; [left | right].
      - assert ((scr_height - (height + 2)) / 2 < 0)
          by (apply Z.div_lt_upper_bound; lia). lia.
      - assert ((scr_width - (width * 2 + 3) * 2) / 2 < 0)
          by (apply Z.div_lt_upper_bound; lia). lia. }
    now rewrite E.
  - intros H1 H2.
    assert (Hr : 0 <= (scr_height - (height + 2)) / 2
                 <= scr_height - (height + 2)).
    { split; [apply Z.div_pos; lia |].
      apply Z.div_le_upper_bound; lia. }
    assert (Hc : 0 <= (scr_width - (width * 2 + 3) * 2) / 2
                 <= scr_width - (width * 2 + 3) * 2).
    { split; [apply Z.div_pos; lia |].
      apply Z.div_le_upper_bound; lia. }
    assert (E : (o_row <=? 0) || (o_col <=? 0) = false).
    { apply orb_false_iff. rewrite !Z.leb_gt. unfold o_row, o_col. lia. }
    rewrite E. eexists. exists o_row, o_col. split; [reflexivity |].
    repeat split; try (unfold o_row, o_col; lia).
    + rewrite finally_calls. apply in_or_app. left.
      destruct (run_grows inputs
                  (__init__ setup_calls o_row o_col width height))
        as [new Hc'].
      rewrite Hc', init_calls_eq. apply in_or_app. left.
      apply in_or_app. right. cbn. tauto.
    + rewrite finally_calls. apply in_or_app. left.
      destruct (run_grows inputs
                  (__init__ setup_calls o_row o_col width height))
        as [new Hc'].
      rewrite Hc', init_calls_eq. apply in_or_app. left.
      apply in_or_app. right. cbn. tauto.
Qed.

(** X12: whenever [main] gets as far as building the game object, its
    calls begin with the terminal setup and the three constructors and end
    with the four calls of the [finally] clause, whether [run] returned
    or raised; and [main] ends the way [run] did. *)
Theorem main_restores_terminal py_int argv term_size inputs o
  (Hran : main py_int argv term_size inputs = Ran o) :
  exists o_row o_col width height mid,
    calls (final o) =
      setup_calls ++
      [NewActivePanel o_row o_col width height;
       NewMessagePanel o_row (o_col + (width + 1) * 2) width height;
       NewBackend width height] ++
      mid ++ cleanup_calls /\
    match o with
    | Ok e _ =>
        exists s', run inputs (__init__ setup_calls o_row o_col width height)
                   = Ok e s'
    | Raise e _ =>
        exists s', run inputs (__init__ setup_calls o_row o_col width height)
                   = Raise e s'
    end.
Proof.
  unfold main in Hran.
  destruct (parse_args py_int argv) as [e | [width height]]; [discriminate |].
  destruct ((width <? 12) || (height <? 20)); [discriminate |].
  destruct term_size as [scr_width scr_height].
  match type of Hran with
  | (if ?c then _ else _) = _ => destruct c; [discriminate |]
  end.
  injection Hran as <-. unfold setup_calls, cleanup_calls.
  match goal with
  | |- context [__init__ _ ?r ?c width height] =>
      set (o_row := r); set (o_col := c)
  end.
  exists o_row, o_col, width, height.
  match goal with
  | |- context [run inputs ?s] => set (s0 := s)
  end.
  destruct (run_grows inputs s0) as [mid Hc].
  exists mid. split.
  - rewrite finally_calls, Hc. unfold s0. rewrite init_calls_eq.
    now rewrite <- !app_assoc.
  - destruct (run inputs s0) as [e s1 | e s1]; cbn; eauto.
Qed.

(** ** What the response to a result leaves alone *)

(** X13: responding to an action result, landing or not, returning or
    raising, calls no backend method and leaves the backend, the tick
    counter and the row of the statistics as they were: it only reads the
    backend's next piece. *)
Theorem response_leaves_backend tetro row col elim (s : Termtris) :
  (exists new,
      calls (final (_act_response tetro row col elim s)) = calls s ++ new /\
      backend_calls new = []) /\
  backend (final (_act_response tetro row col elim s)) = backend s /\
  tick (final (_act_response tetro row col elim s)) = tick s /\
  stat_sect_row (final (_act_response tetro row col elim s))
    = stat_sect_row s.
Proof.
  split.
  - exact (keeps_act_response (@issues Tetro B []) issues_refl quiet_trans
             quiet_fields quiet_panel tetro row col elim s).
  - apply (inv_act_response
             (fun s' => backend s' = backend s /\ tick s' = tick s /\
                        stat_sect_row s' = stat_sect_row s)).
    + intros e s0 _ H. exact H.
    + intros k pts s0 Hk [H1 [H2 H3]].
      destruct (renew_game_stat_fields (scored pts s0))
        as [s' [E [_ [_ [Hb [Ht [Hr _]]]]]]].
      destruct (scored_fields pts s0) as [_ [_ [Fb [_ [Ft [Fr _]]]]]].
      rewrite E. cbn [final]. rewrite Hb, Ht, Hr, Fb, Ft, Fr. auto.
    + auto.
Qed.

End Invariants.

(** * The theorems at concrete inputs *)

(** C1 at a landing that clears rows 2 and 5, from score 950. *)
Lemma act_response_landing_signal_witness :
  let s := Scripted.game [] 950 950 (Some 8) 0 in
  (forall rows, Some [2; 5] = Some rows -> (List.length rows <= 4)%nat) /\
  exists s',
    _act_response Scripted.PL 0 5 (Some [2; 5]) s = Ok tt s' /\
    (score s' <> score s <-> Some [2; 5] <> None) /\
    (Some [2; 5] = Some [] -> score s' = score s + 10).
Proof.
  assert (H : forall rows : list Z,
             Some [2; 5] = Some rows -> (List.length rows <= 4)%nat).
  { intros rows [= <-]. cbn. lia. }
  split; [exact H |].
  exact (proj2 (act_response_landing_signal (backend_ops := Scripted.ops)
                  Scripted.PL 0 5 (Some [2; 5])
                  (Scripted.game [] 950 950 (Some 8) 0)) H).
Defined.

(** C2 at the command line [termtris.py 10 30]: too narrow. *)
Lemma main_dimension_check_witness :
  parse_args Scripted.read_int ["termtris.py"; "10"; "30"]%string
    = inr (10, 30) /\
  main (backend_ops := Scripted.ops) Scripted.read_int
       ["termtris.py"; "10"; "30"]%string (120, 40) []
    = Failed (ValueError dims_msg) /\
  main_calls (main (backend_ops := Scripted.ops) Scripted.read_int
                   ["termtris.py"; "10"; "30"]%string (120, 40) []) = [].
Proof.
  split; [reflexivity |].
  apply (main_dimension_check (backend_ops := Scripted.ops) Scripted.read_int
           ["termtris.py"; "10"; "30"]%string (120, 40) [] 10 30 eq_refl).
  left. lia.
Defined.

(** C3 at two cleared rows: 200 points. *)
Lemma landing_adds_table_entry_witness :
  (List.length [2; 5] <= 4)%nat /\
  exists s',
    _act_response Scripted.PL 0 5 (Some [2; 5])
                  (Scripted.game [] 950 950 (Some 8) 0) = Ok tt s' /\
    score s' = 950 + nth 2 _SCORE_TABLE 0.
Proof.
  split; [cbn; lia |].
  apply (landing_adds_table_entry (backend_ops := Scripted.ops)
           Scripted.PL 0 5 [2; 5] (Scripted.game [] 950 950 (Some 8) 0)).
  cbn. lia.
Defined.

(** C4 at score 1150: index 1, level 2, speed 7. *)
Lemma renew_level_and_speed_witness :
  smallest_exceeding _LEVEL_TABLE 1150 1 /\
  speed (final (_renew_game_stat (Scripted.game [] 1150 1150 None 0)))
    = Some 7.
Proof.
  assert (H : smallest_exceeding _LEVEL_TABLE 1150 1).
  { split.
    - exists 2000. split; [reflexivity | lia].
    - intros [| j] level Hj Hl; [| lia]. injection Hl as <-. lia. }
  split; [exact H |].
  destruct (renew_level_and_speed (backend_ops := Scripted.ops)
              (Scripted.game [] 1150 1150 None 0) 1 H) as [E _].
  rewrite E. reflexivity.
Defined.

(** C5 at speed 8, counter at 3: eight idle calls, one [move_down]. *)
Lemma idle_fall_gravity_witness :
  let s := Scripted.game [] 0 0 (Some 8) 3 in
  speed s = Some 8 /\ 0 < 8 /\
  exists s', idle_calls 8 s = Ok tt s' /\
             calls s' = calls s ++ [BackendCall Move_down].
Proof.
  split; [reflexivity |]. split; [lia |].
  apply (idle_fall_gravity (backend_ops := Scripted.ops)
           (Scripted.game [] 0 0 (Some 8) 3) 8 eq_refl).
  lia.
Defined.

(** C7 at a pause ended by a key. *)
Lemma pause_is_driver_only_witness :
  let s := Scripted.game [Scripted.moved] 950 950 (Some 8) 3 in
  true = true /\
  loop_body (backend_ops := Scripted.ops) (mkInput Key.ESC true) s = Ok tt s.
Proof.
  split; [reflexivity |].
  apply (pause_is_driver_only (backend_ops := Scripted.ops) true
           (Scripted.game [Scripted.moved] 950 950 (Some 8) 3) eq_refl).
Defined.

(** * Runs of the whole program *)

(** No arguments, a 120x40 terminal; Enter, one idle tick, Down, Ctrl-X: the
    score is the 10 of a fresh game, the counter stands at 1, and the
    backend was asked for [kick_off] and one [move_down]. *)
Example run_short_game :
  match main (backend_ops := Scripted.ops) Scripted.read_int
             ["termtris.py"]%string (120, 40)
             [mkInput Key.ENTER true; mkInput Key.NONE true;
              mkInput Key.DOWN true; mkInput Key.CONTROL_X true] with
  | Ran (Ok Exited s) =>
      score s = 10 /\ highest s = 10 /\ speed s = Some 8 /\ tick s = 1 /\
      backend_calls (calls s) = [Kick_off; Move_down]
  | _ => False
  end.
Proof. vm_compute. repeat split. Qed.

(** The speed for scores around the thresholds. *)
Example speeds_at_thresholds :
  map (fun sc => speed (final (_renew_game_stat
                                 (Scripted.game [] sc 0 None 0))))
      [-5; 0; 999; 1000; 63999; 64000; 79999999; 80000000]
  = [Some 8; Some 8; Some 8; Some 7; Some 2; Some 1; Some 1; None].
Proof. reflexivity. Qed.

(** A landing with four rows cleared, from 63900 points: 800 more, level 8,
    speed 1. *)
Example four_rows_landing :
  match _act_response Scripted.PI 0 4 (Some [16; 17; 18; 19])
                      (Scripted.game [] 63900 70000 (Some 2) 1) with
  | Ok _ s => score s = 64700 /\ highest s = 70000 /\ speed s = Some 1
  | Raise _ _ => False
  end.
Proof. vm_compute. repeat split. Qed.

(** A screen too small for the default board. *)
Example run_small_screen :
  main (backend_ops := Scripted.ops) Scripted.read_int
       ["termtris.py"]%string (40, 24) []
  = Failed (EnvironmentError screen_msg).
Proof. reflexivity. Qed.

(** * The further theorems at concrete inputs *)

(** A scripted backend is well behaved on the scripts whose answers all
    carry at most four rows. *)
Lemma from_script_well_behaved script :
  @well_behaved _ _ (Scripted.from_script script) (Forall rows_ok).
Proof.
  intros b Hb. split; [| split].
  - intros op Hin.
    assert (Hop : op = Scripted.answer).
    { cbn in Hin. intuition congruence. }
    subst op. destruct Hb as [| r rest Hr Hrest]; cbn; split; auto.
  - reflexivity.
  - exact Hb.
Qed.

(** X3 on a game with two landings and a move: Enter, Down, Space, an idle
    tick, Ctrl-X. *)
Lemma run_never_raises_witness :
  let script := [Scripted.moved; Scripted.landed [19];
                 Scripted.landed [16; 17; 18; 19]; Scripted.moved] in
  let inputs := [mkInput Key.ENTER true; mkInput Key.DOWN true;
                 mkInput Key.SPACE true; mkInput Key.NONE true;
                 mkInput Key.CONTROL_X true] in
  @well_behaved _ _ (Scripted.from_script script) (Forall rows_ok) /\
  Forall rows_ok (@new_backend _ _ (Scripted.from_script script) 12 20) /\
  Forall (fun i => in_getch i = true) inputs /\
  exists e s',
    run (backend_ops := Scripted.from_script script) inputs
        (__init__ (backend_ops := Scripted.from_script script) [] 1 1 12 20)
    = Ok e s'.
Proof.
  cbv zeta.
  assert (Hb : Forall rows_ok
                 [Scripted.moved; Scripted.landed [19];
                  Scripted.landed [16; 17; 18; 19]; Scripted.moved]).
  { repeat constructor; cbn; lia. }
  assert (Hg : Forall (fun i : Input => in_getch i = true)
                 [mkInput Key.ENTER true; mkInput Key.DOWN true;
                  mkInput Key.SPACE true; mkInput Key.NONE true;
                  mkInput Key.CONTROL_X true]).
  { repeat constructor. }
  split; [apply from_script_well_behaved |]. split; [exact Hb |].
  split; [exact Hg |].
  exact (run_never_raises (backend_ops := Scripted.from_script _)
           (Forall rows_ok) [] 1 1 12 20 _
           (from_script_well_behaved _) Hb Hg).
Defined.

(** X4 on Down, with a landing that clears one row. *)
Lemma score_only_drops_on_enter_witness :
  let s := Scripted.game [Scripted.landed [19]] 950 950 (Some 8) 0 in
  Key.DOWN <> Key.ENTER /\
  score s <= score (final (loop_body (mkInput Key.DOWN true) s)).
Proof.
  cbv zeta. assert (H : Key.DOWN <> Key.ENTER) by discriminate.
  split; [exact H |].
  exact (score_only_drops_on_enter (backend_ops := Scripted.ops)
           (mkInput Key.DOWN true)
           (Scripted.game [Scripted.landed [19]] 950 950 (Some 8) 0) H).
Defined.

(** X6 on five rows. *)
Lemma landing_beyond_table_witness :
  let s := Scripted.game [] 950 950 (Some 8) 0 in
  (4 < List.length [15; 16; 17; 18; 19])%nat /\
  exists s',
    _act_response Scripted.PI 0 4 (Some [15; 16; 17; 18; 19]) s
      = Raise IndexError s' /\
    calls s' = calls s ++ [ActMergeTetro;
                           ActBlinkRows [15; 16; 17; 18; 19] 3 (1 # 10)%Q;
                           ActRemoveRows [15; 16; 17; 18; 19]] /\
    score s' = score s /\ highest s' = highest s /\ speed s' = speed s.
Proof.
  cbv zeta. assert (H : (4 < List.length [15; 16; 17; 18; 19])%nat)
    by (cbn; lia).
  split; [exact H |].
  exact (landing_beyond_table (backend_ops := Scripted.ops) Scripted.PI 0 4
           [15; 16; 17; 18; 19] (Scripted.game [] 950 950 (Some 8) 0) H).
Defined.

(** X7 on two rows from 950 points: 1150 points, level 2, speed 7. *)
Lemma landing_postcondition_witness :
  let s := Scripted.game [] 950 950 (Some 8) 0 in
  nth_error _SCORE_TABLE (List.length [18; 19]) = Some 200 /\
  first_above (score s + 200) _LEVEL_TABLE = Some 1%nat /\
  exists s',
    _act_response Scripted.PL 0 5 (Some [18; 19]) s = Ok tt s' /\
    score s' = 1150 /\ highest s' = 1150 /\ speed s' = Some 7.
Proof.
  cbv zeta. split; [reflexivity |]. split; [reflexivity |].
  destruct (landing_postcondition (backend_ops := Scripted.ops)
              Scripted.PL 0 5 [18; 19] 200 1
              (Scripted.game [] 950 950 (Some 8) 0) eq_refl eq_refl)
    as [s' [E [H1 [H2 [H3 _]]]]].
  exists s'. repeat split; assumption.
Defined.

(** X9 at scores 500 and 5000. *)
Lemma renew_speed_monotone_witness :
  let s1 := Scripted.game [] 500 500 None 0 in
  let s2 := Scripted.game [] 5000 5000 None 0 in
  score s1 <= score s2 /\ score s2 < 80000000 /\
  exists n1 n2,
    speed (final (_renew_game_stat s1)) = Some n1 /\
    speed (final (_renew_game_stat s2)) = Some n2 /\
    1 <= n2 <= n1 /\ n1 <= 8 /\ (score s1 = score s2 -> n1 = n2).
Proof.
  cbv zeta.
  assert (H1 : score (Scripted.game [] 500 500 None 0)
               <= score (Scripted.game [] 5000 5000 None 0)) by (cbn; lia).
  assert (H2 : score (Scripted.game [] 5000 5000 None 0) < 80000000)
    by (cbn; lia).
  split; [exact H1 |]. split; [exact H2 |].
  exact (renew_speed_monotone (backend_ops := Scripted.ops) _ _ H1 H2).
Defined.

(** X10 at speed 8, counter at 3, twenty idle calls: two moves. *)
Lemma idle_calls_count_witness :
  let s := Scripted.game [] 0 0 (Some 8) 3 in
  speed s = Some 8 /\ 0 < 8 /\
  exists s',
    idle_calls 20 s = Ok tt s' /\
    calls s' = calls s ++ repeat (BackendCall Move_down) 2.
Proof.
  cbv zeta. split; [reflexivity |]. split; [lia |].
  destruct (idle_calls_count (backend_ops := Scripted.ops) 20
              (Scripted.game [] 0 0 (Some 8) 3) 8 eq_refl ltac:(lia))
    as [s' [E [_ [_ [_ [_ [Hc _]]]]]]].
  exists s'. split; [exact E |]. exact Hc.
Defined.

(** X11 for the default board on a 120x40 terminal and on a 53-column
    one. *)
Lemma main_screen_check_witness :
  parse_args Scripted.read_int ["termtris.py"]%string = inr (12, 20) /\
  12 <= 12 /\ 20 <= 20 /\
  main (backend_ops := Scripted.ops) Scripted.read_int
       ["termtris.py"]%string (53, 40) []
    = Failed (EnvironmentError screen_msg).
Proof.
  split; [reflexivity |]. split; [lia |]. split; [lia |].
  apply (main_screen_check (backend_ops := Scripted.ops) Scripted.read_int
           ["termtris.py"]%string 53 40 [] 12 20 eq_refl); lia.
Defined.

(** X12 for a game that is quit at once. *)
Lemma main_restores_terminal_witness :
  let inputs := [mkInput Key.CONTROL_X true] in
  let o := finally (run (backend_ops := Scripted.ops) inputs
                        (__init__ setup_calls 5 34 12 20)) in
  main (backend_ops := Scripted.ops) Scripted.read_int
       ["termtris.py"]%string (120, 40) inputs = Ran o /\
  exists o_row o_col width height mid,
    calls (final o) =
      setup_calls ++
      [NewActivePanel o_row o_col width height;
       NewMessagePanel o_row (o_col + (width + 1) * 2) width height;
       NewBackend width height] ++
      mid ++ cleanup_calls.
Proof.
  cbv zeta.
  assert (H : main (backend_ops := Scripted.ops) Scripted.read_int
                   ["termtris.py"]%string (120, 40)
                   [mkInput Key.CONTROL_X true]
              = Ran (finally (run (backend_ops := Scripted.ops)
                                  [mkInput Key.CONTROL_X true]
                                  (__init__ setup_calls 5 34 12 20))))
    by reflexivity.
  split; [exact H |].
  destruct (main_restores_terminal (backend_ops := Scripted.ops) _ _ _ _ _ H)
    as [r [c [w [h [mid [Hc _]]]]]].
  exists r, c, w, h, mid. exact Hc.
Defined.
